(** * MiraWish wishlist API: ownership model and JWT session contract

    A shallow embedding of the request handlers of [app/routes], the
    authentication helpers of [app/auth] and the exception mapping of
    [app/exceptions.py] and [app/main.py], followed by the properties
    the specification states about them.

    Conventions.
    - A table is a finite map from primary key to row; the row records
      carry every column but the key.  A loaded ORM object is the pair
      of its key and its row.
    - A handler is a function from the database to an outcome (a value
      or a raised exception) and the database left behind.  Writes that
      a handler commits are applied in the order of the source; a
      handler that raises before its commit leaves the database as it
      found it.
    - Prices are [Numeric(10, 2)] columns: an integer number of cents.
    - [datetime.utcnow] is read through a [Clock]: the n-th reading made
      while a request is served. *)

From Stdlib Require Import Ascii String.
From stdpp Require Import gmap strings list fin_maps.

#[local] Set Warnings "-clear-no-such-hyp".

Local Open Scope Z_scope.
Local Open Scope string_scope.

(** ** Exceptions ([app/exceptions.py]) *)

Inductive IntegrityKind :=
| UniqueViolation
| ForeignKeyViolation
| NotNullViolation.

Inductive Exn :=
(* WishlistAPIException and its subclasses *)
| AuthenticationError (message : string)
| AuthorizationError (message : string)
| ResourceNotFoundError (message : string)
| ConflictError (message : string)
| ValidationError (message : string)
(* fastapi.HTTPException *)
| HTTPException (status_code : Z) (detail : string)
(* sqlalchemy.exc *)
| IntegrityError (kind : IntegrityKind)
| MultipleResultsFound
(* jose.JWTError and its subclasses *)
| JWTError
| ExpiredSignatureError
| JWTClaimsError
(* passlib.exc *)
| UnknownHashError.

Inductive Result (A : Type) :=
| Ok (a : A)
| Raise (e : Exn).
Arguments Ok {A} a.
Arguments Raise {A} e.

(** Sequencing: the first exception raised ends the computation. *)
#[global] Instance Result_ret : MRet Result := λ A a, Ok a.
#[global] Instance Result_bind : MBind Result := λ A B k r,
  match r with
  | Ok a => k a
  | Raise e => Raise e
  end.

Definition HTTP_400_BAD_REQUEST : Z := 400.
Definition HTTP_401_UNAUTHORIZED : Z := 401.
Definition HTTP_403_FORBIDDEN : Z := 403.
Definition HTTP_404_NOT_FOUND : Z := 404.
Definition HTTP_409_CONFLICT : Z := 409.
Definition HTTP_422_UNPROCESSABLE_ENTITY : Z := 422.
Definition HTTP_500_INTERNAL_SERVER_ERROR : Z := 500.

(** [isinstance(e, HTTPException)]: the custom exceptions derive from
    [Exception], not from [HTTPException]. *)
Definition is_HTTPException (e : Exn) : bool :=
  match e with
  | HTTPException _ _ => true
  | _ => false
  end.

(** [isinstance(e, JWTError)]. *)
Definition is_JWTError (e : Exn) : bool :=
  match e with
  | JWTError | ExpiredSignatureError | JWTClaimsError => true
  | _ => false
  end.

(** The status code of the response the handlers registered in
    [app/main.py] build for an exception that leaves a route. *)
Definition response_status (e : Exn) : Z :=
  match e with
  | AuthenticationError _ => HTTP_401_UNAUTHORIZED
  | AuthorizationError _ => HTTP_403_FORBIDDEN
  | ResourceNotFoundError _ => HTTP_404_NOT_FOUND
  | ConflictError _ => HTTP_409_CONFLICT
  | ValidationError _ => HTTP_422_UNPROCESSABLE_ENTITY
  | HTTPException status_code _ => status_code
  | IntegrityError UniqueViolation => HTTP_409_CONFLICT
  | IntegrityError ForeignKeyViolation => HTTP_400_BAD_REQUEST
  | IntegrityError NotNullViolation => HTTP_500_INTERNAL_SERVER_ERROR
  | MultipleResultsFound => HTTP_500_INTERNAL_SERVER_ERROR
  | JWTError | ExpiredSignatureError | JWTClaimsError =>
      HTTP_500_INTERNAL_SERVER_ERROR
  | UnknownHashError => HTTP_500_INTERNAL_SERVER_ERROR
  end.

(** ** Models ([app/models]) *)

Module User.
Record t := mk {
  email : string;
  hashed_password : string;
  created_at : Z;
  updated_at : Z
}.
End User.

Module WishlistCollection.
Record t := mk {
  user_id : Z;
  name : string;
  description : option string;
  color : option string;
  is_default : bool;
  created_at : Z;
  updated_at : Z
}.
End WishlistCollection.

Module WishlistItem.
Record t := mk {
  user_id : Z;
  collection_id : Z;
  title : string;
  product_url : option string;
  initial_price : Z;
  current_price : Z;
  currency : string;
  created_at : Z;
  updated_at : Z
}.
End WishlistItem.

Module PriceHistory.
Record t := mk {
  wishlist_item_id : Z;
  price : Z;
  checked_at : Z
}.
End PriceHistory.

#[global] Instance User_eq_dec : EqDecision User.t.
Proof. solve_decision. Defined.
#[global] Instance WishlistCollection_eq_dec : EqDecision WishlistCollection.t.
Proof. solve_decision. Defined.
#[global] Instance WishlistItem_eq_dec : EqDecision WishlistItem.t.
Proof. solve_decision. Defined.
#[global] Instance PriceHistory_eq_dec : EqDecision PriceHistory.t.
Proof. solve_decision. Defined.

(** ** The database ([app/database.py]) *)

Record DB := mkDB {
  users : gmap Z User.t;
  wishlist_collections : gmap Z WishlistCollection.t;
  wishlist_items : gmap Z WishlistItem.t;
  price_history : gmap Z PriceHistory.t
}.

Definition empty_db : DB := mkDB ∅ ∅ ∅ ∅.

(** Successive readings of [datetime.utcnow] within one request. *)
Definition Clock := nat → Z.

(** The key an [INTEGER PRIMARY KEY] column gets on insert with the
    SQLite engine [database.py] configures: one more than the largest
    key in the table, 1 in an empty table. *)
Definition max_id {A} (table : gmap Z A) : Z :=
  foldr Z.max 0 (map_to_list table).*1.

Definition next_id {A} (table : gmap Z A) : Z := max_id table + 1.

(** [result.scalar_one_or_none()] on the rows a query selected. *)
Definition scalar_one_or_none {A} (rows : list A) : Result (option A) :=
  match rows with
  | [] => Ok None
  | [row] => Ok (Some row)
  | _ => Raise MultipleResultsFound
  end.

(** [select(WishlistCollection).where(and_(id == collection_id,
    user_id == current_user.id))] followed by [scalar_one_or_none]: the
    primary key selects at most one row. *)
Definition select_collection (collection_id user_id : Z) (db : DB)
  : option WishlistCollection.t :=
  match wishlist_collections db !! collection_id with
  | Some collection =>
      if decide (WishlistCollection.user_id collection = user_id)
      then Some collection else None
  | None => None
  end.

(** [select(WishlistItem).where(WishlistItem.id == item_id)]. *)
Definition select_item (item_id : Z) (db : DB) : option WishlistItem.t :=
  wishlist_items db !! item_id.

(** [select(WishlistItem).where(id == item_id, user_id == current_user.id)]. *)
Definition select_item_of (item_id user_id : Z) (db : DB)
  : option WishlistItem.t :=
  match wishlist_items db !! item_id with
  | Some item =>
      if decide (WishlistItem.user_id item = user_id)
      then Some item else None
  | None => None
  end.

(** The rows of a table, with their keys, that satisfy a predicate. *)
Definition select_where {A} (P : Z * A → Prop) `{!∀ x, Decision (P x)}
    (table : gmap Z A) : list (Z * A) :=
  map_to_list (filter P table).

(** [select(User).where(User.email == email)]. *)
Definition select_user_by_email (email : string) (db : DB)
  : list (Z * User.t) :=
  select_where (λ kv, User.email kv.2 = email) (users db).

Definition collections_of (user_id : Z) (db : DB)
  : gmap Z WishlistCollection.t :=
  filter (λ kv, WishlistCollection.user_id kv.2 = user_id)
         (wishlist_collections db).

(** The [items] relationship of a collection and the [price_history]
    relationship of an item. *)
Definition items_of_collection (collection_id : Z) (db : DB)
  : gmap Z WishlistItem.t :=
  filter (λ kv, WishlistItem.collection_id kv.2 = collection_id)
         (wishlist_items db).

Definition price_history_of (item_id : Z) (db : DB)
  : gmap Z PriceHistory.t :=
  filter (λ kv, PriceHistory.wishlist_item_id kv.2 = item_id)
         (price_history db).

(** ** SQLAlchemy unit-of-work helpers *)

(** A request field under [model_dump(exclude_unset=True)]: left out
    of the body, or given (possibly as JSON null). *)
Inductive Field (A : Type) :=
| Omitted
| Given (value : option A).
Arguments Omitted {A}.
Arguments Given {A} value.

(** The attribute value read from the parsed body: [None] for a field
    that was left out. *)
Definition field_value {A} (f : Field A) : option A :=
  match f with
  | Omitted => None
  | Given v => v
  end.

(** [setattr] on a nullable column. *)
Definition setattr_nullable {A} (f : Field A) (old : option A) : option A :=
  match f with
  | Omitted => old
  | Given v => v
  end.

(** [setattr] on a [nullable=False] column: a null makes the flush of
    the commit fail. *)
Definition setattr_required {A} (f : Field A) (old : A) : Result A :=
  match f with
  | Omitted => Ok old
  | Given (Some v) => Ok v
  | Given None => Raise (IntegrityError NotNullViolation)
  end.

Definition touch_collection (now : Z) (c : WishlistCollection.t)
  : WishlistCollection.t :=
  WishlistCollection.mk
    (WishlistCollection.user_id c) (WishlistCollection.name c)
    (WishlistCollection.description c) (WishlistCollection.color c)
    (WishlistCollection.is_default c) (WishlistCollection.created_at c) now.

Definition with_is_default (b : bool) (c : WishlistCollection.t)
  : WishlistCollection.t :=
  WishlistCollection.mk
    (WishlistCollection.user_id c) (WishlistCollection.name c)
    (WishlistCollection.description c) (WishlistCollection.color c)
    b (WishlistCollection.created_at c) (WishlistCollection.updated_at c).

Definition touch_item (now : Z) (i : WishlistItem.t) : WishlistItem.t :=
  WishlistItem.mk
    (WishlistItem.user_id i) (WishlistItem.collection_id i)
    (WishlistItem.title i) (WishlistItem.product_url i)
    (WishlistItem.initial_price i) (WishlistItem.current_price i)
    (WishlistItem.currency i) (WishlistItem.created_at i) now.

(** The flush of a loaded object: an UPDATE is emitted only when some
    attribute differs from the loaded row, and it then runs the
    [onupdate] default of [updated_at]. *)
Definition flush_collection (now : Z) (old new : WishlistCollection.t)
  : WishlistCollection.t :=
  if decide (new = old) then old else touch_collection now new.

Definition flush_item (now : Z) (old new : WishlistItem.t) : WishlistItem.t :=
  if decide (new = old) then old else touch_item now new.

(** [update(WishlistCollection).where(and_(user_id == current_user.id,
    is_default == True [, id != collection_id])).values(is_default=False)] *)
Definition unset_defaults (user_id : Z) (except : option Z) (now : Z)
    (table : gmap Z WishlistCollection.t) : gmap Z WishlistCollection.t :=
  map_imap (λ id c,
    Some (if decide (WishlistCollection.user_id c = user_id
                     ∧ WishlistCollection.is_default c = true
                     ∧ Some id ≠ except)
          then touch_collection now (with_is_default false c)
          else c)) table.

Definition set_collections (table : gmap Z WishlistCollection.t) (db : DB) : DB :=
  mkDB (users db) table (wishlist_items db) (price_history db).

Definition set_items (table : gmap Z WishlistItem.t) (db : DB) : DB :=
  mkDB (users db) (wishlist_collections db) table (price_history db).

Definition set_price_history (table : gmap Z PriceHistory.t) (db : DB) : DB :=
  mkDB (users db) (wishlist_collections db) (wishlist_items db) table.

Definition set_users (table : gmap Z User.t) (db : DB) : DB :=
  mkDB table (wishlist_collections db) (wishlist_items db) (price_history db).

(** Whether a price-history row hangs off an item of the collection. *)
Definition entry_in_collection (collection_id : Z) (db : DB)
    (entry : PriceHistory.t) : Prop :=
  match wishlist_items db !! PriceHistory.wishlist_item_id entry with
  | Some item => WishlistItem.collection_id item = collection_id
  | None => False
  end.

#[global] Instance entry_in_collection_dec collection_id db entry :
  Decision (entry_in_collection collection_id db entry).
Proof. unfold entry_in_collection. destruct (_ !! _); apply _. Defined.

(** [db.delete(collection)]: the [items] relationship cascades with
    "all, delete-orphan", and so does [price_history] on each item. *)
Definition delete_collection_cascade (collection_id : Z) (db : DB) : DB :=
  mkDB (users db)
       (delete collection_id (wishlist_collections db))
       (filter (λ kv, WishlistItem.collection_id kv.2 ≠ collection_id)
               (wishlist_items db))
       (filter (λ kv, ¬ entry_in_collection collection_id db kv.2)
               (price_history db)).

(** [db.delete(item)] with the cascade on [price_history]. *)
Definition delete_item_cascade (item_id : Z) (db : DB) : DB :=
  mkDB (users db)
       (wishlist_collections db)
       (delete item_id (wishlist_items db))
       (filter (λ kv, PriceHistory.wishlist_item_id kv.2 ≠ item_id)
               (price_history db)).

(** ** Collection routes ([app/routes/wishlist_collections.py]) *)

Record WishlistCollectionCreate := {
  create_name : string;
  create_description : option string;
  create_color : option string;
  create_is_default : option bool
}.

Record WishlistCollectionUpdate := {
  update_name : Field string;
  update_description : Field string;
  update_color : Field string;
  update_is_default : Field bool
}.

(** A collection as the response schemas read it: key, row, item count. *)
Record CollectionResponse := {
  resp_id : Z;
  resp_collection : WishlistCollection.t;
  resp_item_count : nat
}.

(** Python truth of an [Optional[bool]], [Optional[str]], [Optional[int]]. *)
Definition truthy_bool (b : option bool) : bool := default false b.
Definition truthy_str (s : option string) : bool :=
  match s with
  | Some s => bool_decide (s ≠ "")
  | None => false
  end.
Definition truthy_int (n : option Z) : bool :=
  match n with
  | Some n => bool_decide (n ≠ 0)
  | None => false
  end.

Definition create_collection (collection_data : WishlistCollectionCreate)
    (current_user : Z * User.t) (utcnow : Clock) (db : DB)
  : Result CollectionResponse * DB :=
  match scalar_one_or_none
          (select_where
             (λ kv, WishlistCollection.user_id kv.2 = current_user.1
                    ∧ WishlistCollection.name kv.2 = create_name collection_data)
             (wishlist_collections db)) with
  | Raise e => (Raise e, db)
  | Ok (Some _) =>
      (Raise (ConflictError ("Collection with name '" +:+
                             create_name collection_data +:+
                             "' already exists")), db)
  | Ok None =>
      let table :=
        if truthy_bool (create_is_default collection_data)
        then unset_defaults current_user.1 None (utcnow 0%nat)
                            (wishlist_collections db)
        else wishlist_collections db in
      let collection :=
        WishlistCollection.mk
          current_user.1
          (create_name collection_data)
          (create_description collection_data)
          (create_color collection_data)
          (default false (create_is_default collection_data))
          (utcnow 1%nat) (utcnow 2%nat) in
      let id := next_id table in
      (Ok {| resp_id := id; resp_collection := collection;
             resp_item_count := 0 |},
       set_collections (<[id := collection]> table) db)
  end.

Definition get_collections (current_user : Z * User.t) (db : DB)
  : Result (list CollectionResponse) * DB :=
  (Ok (map (λ kv, {| resp_id := kv.1; resp_collection := kv.2;
                     resp_item_count := size (items_of_collection kv.1 db) |})
           (map_to_list (collections_of current_user.1 db))),
   db).

Definition get_collection (collection_id : Z) (current_user : Z * User.t)
    (db : DB)
  : Result (CollectionResponse * gmap Z WishlistItem.t) * DB :=
  match select_collection collection_id current_user.1 db with
  | None => (Raise (ResourceNotFoundError "Collection not found"), db)
  | Some collection =>
      let items := items_of_collection collection_id db in
      (Ok ({| resp_id := collection_id; resp_collection := collection;
              resp_item_count := size items |}, items),
       db)
  end.

(** The [setattr] loop of [update_collection] over the dumped body. *)
Definition apply_collection_update (collection_data : WishlistCollectionUpdate)
    (collection : WishlistCollection.t) : Result WishlistCollection.t :=
  match setattr_required (update_name collection_data)
                         (WishlistCollection.name collection),
        setattr_required (update_is_default collection_data)
                         (WishlistCollection.is_default collection) with
  | Ok name, Ok is_default =>
      Ok (WishlistCollection.mk
            (WishlistCollection.user_id collection)
            name
            (setattr_nullable (update_description collection_data)
                              (WishlistCollection.description collection))
            (setattr_nullable (update_color collection_data)
                              (WishlistCollection.color collection))
            is_default
            (WishlistCollection.created_at collection)
            (WishlistCollection.updated_at collection))
  | Raise e, _ => Raise e
  | _, Raise e => Raise e
  end.

Definition update_collection (collection_id : Z)
    (collection_data : WishlistCollectionUpdate)
    (current_user : Z * User.t) (utcnow : Clock) (db : DB)
  : Result CollectionResponse * DB :=
  match select_collection collection_id current_user.1 db with
  | None => (Raise (ResourceNotFoundError "Collection not found"), db)
  | Some collection =>
      let new_name := field_value (update_name collection_data) in
      let name_check :=
        if truthy_str new_name
           && bool_decide (new_name ≠ Some (WishlistCollection.name collection))
        then scalar_one_or_none
               (select_where
                  (λ kv, WishlistCollection.user_id kv.2 = current_user.1
                         ∧ Some (WishlistCollection.name kv.2) = new_name
                         ∧ kv.1 ≠ collection_id)
                  (wishlist_collections db))
        else Ok None in
      match name_check with
      | Raise e => (Raise e, db)
      | Ok (Some _) =>
          (Raise (ConflictError ("Collection with name '" +:+
                                 default "" new_name +:+
                                 "' already exists")), db)
      | Ok None =>
          let table :=
            if truthy_bool (field_value (update_is_default collection_data))
            then unset_defaults current_user.1 (Some collection_id)
                                (utcnow 0%nat) (wishlist_collections db)
            else wishlist_collections db in
          match apply_collection_update collection_data collection with
          | Raise e => (Raise e, db)
          | Ok updated =>
              let stored := flush_collection (utcnow 1%nat) collection updated in
              (Ok {| resp_id := collection_id; resp_collection := stored;
                     resp_item_count :=
                       size (items_of_collection collection_id db) |},
               set_collections (<[collection_id := stored]> table) db)
          end
      end
  end.

Definition delete_collection (collection_id : Z) (current_user : Z * User.t)
    (db : DB) : Result () * DB :=
  match select_collection collection_id current_user.1 db with
  | None => (Raise (ResourceNotFoundError "Collection not found"), db)
  | Some collection =>
      let collection_count := size (collections_of current_user.1 db) in
      if decide (collection_count ≤ 1)%nat
      then (Raise (ConflictError "Cannot delete the last remaining collection"),
            db)
      else (Ok (), delete_collection_cascade collection_id db)
  end.

Definition set_default_collection (collection_id : Z)
    (current_user : Z * User.t) (utcnow : Clock) (db : DB)
  : Result CollectionResponse * DB :=
  match select_collection collection_id current_user.1 db with
  | None => (Raise (ResourceNotFoundError "Collection not found"), db)
  | Some collection =>
      (* Unset other defaults.  The session synchronises the loaded
         object with the rows the UPDATE matched. *)
      let table := unset_defaults current_user.1 None (utcnow 0%nat)
                                  (wishlist_collections db) in
      let loaded := default collection (table !! collection_id) in
      (* Set this as default *)
      let stored := flush_collection (utcnow 1%nat) loaded
                                     (with_is_default true loaded) in
      (Ok {| resp_id := collection_id; resp_collection := stored;
             resp_item_count := size (items_of_collection collection_id db) |},
       set_collections (<[collection_id := stored]> table) db)
  end.

(** ** Wishlist routes ([app/routes/wishlist.py]) *)

Record WishlistItemCreate := {
  item_title : string;
  item_product_url : option string;
  item_initial_price : Z;
  item_currency : string;
  item_collection_id : Z
}.

Record WishlistItemUpdate := {
  update_title : Field string;
  update_product_url : Field string;
  update_current_price : Field Z;
  update_collection_id : Field Z
}.

Definition get_user_wishlist (collection_id : option Z)
    (current_user : Z * User.t) (db : DB)
  : Result (gmap Z WishlistItem.t) * DB :=
  let query : gmap Z WishlistItem.t :=
    filter (λ kv, WishlistItem.user_id kv.2 = current_user.1)
           (wishlist_items db) in
  if truthy_int collection_id then
    match select_collection (default 0 collection_id) current_user.1 db with
    | None => (Raise (ResourceNotFoundError "Collection not found"), db)
    | Some _ =>
        (Ok (filter (λ kv, Some (WishlistItem.collection_id kv.2) = collection_id)
                    query), db)
    end
  else (Ok query, db).

Definition create_wishlist_item (item_data : WishlistItemCreate)
    (current_user : Z * User.t) (utcnow : Clock) (db : DB)
  : Result (Z * WishlistItem.t) * DB :=
  (* Verify user owns the collection *)
  match select_collection (item_collection_id item_data) current_user.1 db with
  | None => (Raise (ResourceNotFoundError "Collection not found"), db)
  | Some _ =>
      (* Create new wishlist item *)
      let new_item :=
        WishlistItem.mk
          current_user.1
          (item_collection_id item_data)
          (item_title item_data)
          (item_product_url item_data)
          (item_initial_price item_data)
          (item_initial_price item_data)
          (if decide (item_currency item_data = "") then "USD"
           else item_currency item_data)
          (utcnow 0%nat) (utcnow 1%nat) in
      let new_id := next_id (wishlist_items db) in
      let db1 := set_items (<[new_id := new_item]> (wishlist_items db)) db in
      (* Create initial price history entry *)
      let price_entry :=
        PriceHistory.mk new_id (WishlistItem.initial_price new_item)
                        (utcnow 2%nat) in
      let db2 :=
        set_price_history
          (<[next_id (price_history db1) := price_entry]> (price_history db1))
          db1 in
      (Ok (new_id, new_item), db2)
  end.

Definition get_wishlist_item (item_id : Z) (current_user : Z * User.t)
    (db : DB) : Result (Z * WishlistItem.t) * DB :=
  match select_item item_id db with
  | None => (Raise (ResourceNotFoundError "Wishlist item not found"), db)
  | Some item =>
      if decide (WishlistItem.user_id item ≠ current_user.1)
      then (Raise (AuthorizationError
                     "You don't have permission to access this item"), db)
      else (Ok (item_id, item), db)
  end.

(** The [setattr] loop of [update_wishlist_item] over the dumped body. *)
Definition apply_item_update (item_data : WishlistItemUpdate)
    (item : WishlistItem.t) : Result WishlistItem.t :=
  match setattr_required (update_title item_data) (WishlistItem.title item),
        setattr_required (update_current_price item_data)
                         (WishlistItem.current_price item),
        setattr_required (update_collection_id item_data)
                         (WishlistItem.collection_id item) with
  | Ok title, Ok current_price, Ok collection_id =>
      Ok (WishlistItem.mk
            (WishlistItem.user_id item)
            collection_id
            title
            (setattr_nullable (update_product_url item_data)
                              (WishlistItem.product_url item))
            (WishlistItem.initial_price item)
            current_price
            (WishlistItem.currency item)
            (WishlistItem.created_at item)
            (WishlistItem.updated_at item))
  | Raise e, _, _ => Raise e
  | _, Raise e, _ => Raise e
  | _, _, Raise e => Raise e
  end.

(** Foreign keys are declared but SQLite does not enforce them unless
    the connection turns them on, which [database.py] does not do: a
    [collection_id] that passes the route's own check is stored. *)
Definition update_wishlist_item (item_id : Z) (item_data : WishlistItemUpdate)
    (current_user : Z * User.t) (utcnow : Clock) (db : DB)
  : Result (Z * WishlistItem.t) * DB :=
  match select_item item_id db with
  | None => (Raise (ResourceNotFoundError "Wishlist item not found"), db)
  | Some item =>
      if decide (WishlistItem.user_id item ≠ current_user.1)
      then (Raise (AuthorizationError
                     "You don't have permission to update this item"), db)
      else
        let new_collection := field_value (update_collection_id item_data) in
        (* If collection_id is being updated, verify user owns the new
           collection *)
        if truthy_int new_collection
           && bool_decide (new_collection ≠ Some (WishlistItem.collection_id item))
           && bool_decide (select_collection (default 0 new_collection)
                                             current_user.1 db = None)
        then (Raise (ResourceNotFoundError "Collection not found"), db)
        else
          (* Update item fields *)
          match apply_item_update item_data item with
          | Raise e => (Raise e, db)
          | Ok updated =>
              let stored := flush_item (utcnow 0%nat) item updated in
              (Ok (item_id, stored),
               set_items (<[item_id := stored]> (wishlist_items db)) db)
          end
  end.

Definition delete_wishlist_item (item_id : Z) (current_user : Z * User.t)
    (db : DB) : Result () * DB :=
  match select_item item_id db with
  | None => (Raise (ResourceNotFoundError "Wishlist item not found"), db)
  | Some item =>
      if decide (WishlistItem.user_id item ≠ current_user.1)
      then (Raise (AuthorizationError
                     "You don't have permission to delete this item"), db)
      else (Ok (), delete_item_cascade item_id db)
  end.

Definition get_item_price_history (item_id : Z) (current_user : Z * User.t)
    (db : DB) : Result (gmap Z PriceHistory.t) * DB :=
  (* Verify item exists and belongs to user *)
  match select_item item_id db with
  | None => (Raise (ResourceNotFoundError "Wishlist item not found"), db)
  | Some item =>
      if decide (WishlistItem.user_id item ≠ current_user.1)
      then (Raise (AuthorizationError
                     "You don't have permission to access this item"), db)
      else (Ok (price_history_of item_id db), db)
  end.

(** ** Price-history routes ([app/routes/price_history.py]) *)

(** The [try] ... [except HTTPException: raise] ... [except Exception]
    frame both routes are wrapped in: an [HTTPException] passes, any
    other exception is replaced by a 500 [HTTPException], raised over
    the database as it is once the session is rolled back. *)
Definition except_to_500 {A} (detail : string) (rolled_back : DB)
    (body : Result A * DB) : Result A * DB :=
  match body with
  | (Ok a, db) => (Ok a, db)
  | (Raise e, db) =>
      if is_HTTPException e then (Raise e, db)
      else (Raise (HTTPException HTTP_500_INTERNAL_SERVER_ERROR detail),
            rolled_back)
  end.

Definition get_price_history (item_id : Z) (current_user : Z * User.t)
    (db : DB) : Result (gmap Z PriceHistory.t) * DB :=
  except_to_500 "Failed to retrieve price history" db
    (* First verify the wishlist item exists and belongs to the user *)
    match select_item_of item_id current_user.1 db with
    | None => (Raise (ResourceNotFoundError "Wishlist item not found"), db)
    | Some _ => (Ok (price_history_of item_id db), db)
    end.

Definition create_price_history_entry (item_id : Z) (price : Z)
    (current_user : Z * User.t) (utcnow : Clock) (db : DB)
  : Result (Z * PriceHistory.t) * DB :=
  except_to_500 "Failed to create price history entry" db
    (* First verify the wishlist item exists and belongs to the user *)
    match select_item_of item_id current_user.1 db with
    | None => (Raise (ResourceNotFoundError "Wishlist item not found"), db)
    | Some _ =>
        (* Create new price history entry *)
        let new_price_history := PriceHistory.mk item_id price (utcnow 0%nat) in
        let new_id := next_id (price_history db) in
        (Ok (new_id, new_price_history),
         set_price_history
           (<[new_id := new_price_history]> (price_history db)) db)
    end.

(** ** Session tokens ([app/auth/jwt_handler.py])

    Time is counted in whole POSIX seconds, the resolution of the [exp]
    and [iat] claims: python-jose converts the datetimes it is given,
    and reads its own clock, with [timegm(... .utctimetuple())]. *)

(** A JSON claim value. *)
Inductive Claim :=
| CStr (s : string)
| CInt (n : Z).

#[global] Instance Claim_eq_dec : EqDecision Claim.
Proof. solve_decision. Defined.

(** An HMAC tag, kept symbolic: it records the algorithm, the key and
    the claims it was computed over, so that it verifies under exactly
    that key for exactly those claims. *)
Record Signature := {
  signed_alg : string;
  signed_key : string;
  signed_claims : gmap string Claim
}.

#[global] Instance Signature_eq_dec : EqDecision Signature.
Proof. solve_decision. Defined.

(** A bearer credential: a compact JWS once parsed, or a string that
    has no such parse. *)
Inductive Token :=
| Malformed (raw : string)
| Compact (alg : string) (claims : gmap string Claim) (signature : Signature).

Definition ALGORITHM : string := "HS256".

(** [jose.jwt.encode(claims, key, algorithm)]. *)
Definition jwt_encode (claims : gmap string Claim) (key algorithm : string)
  : Token :=
  Compact algorithm claims
          {| signed_alg := algorithm; signed_key := key;
             signed_claims := claims |}.

(** The claim checks [jose.jwt.decode] runs under its default options
    and with no audience, issuer or access token passed.  A numeric
    claim that is not a number is rejected. *)
Definition validate_iat (claims : gmap string Claim) : Result () :=
  match claims !! "iat" with
  | Some (CStr _) => Raise JWTClaimsError
  | _ => Ok ()
  end.

Definition validate_nbf (now : Z) (claims : gmap string Claim) : Result () :=
  match claims !! "nbf" with
  | Some (CStr _) => Raise JWTClaimsError
  | Some (CInt nbf) => if decide (now < nbf) then Raise JWTClaimsError else Ok ()
  | None => Ok ()
  end.

Definition validate_exp (now : Z) (claims : gmap string Claim) : Result () :=
  match claims !! "exp" with
  | Some (CStr _) => Raise JWTClaimsError
  | Some (CInt exp) =>
      if decide (exp < now) then Raise ExpiredSignatureError else Ok ()
  | None => Ok ()
  end.

(** No audience is passed: a token that names one is refused. *)
Definition validate_aud (claims : gmap string Claim) : Result () :=
  match claims !! "aud" with
  | Some _ => Raise JWTClaimsError
  | None => Ok ()
  end.

Definition validate_str (claim : string) (claims : gmap string Claim)
  : Result () :=
  match claims !! claim with
  | Some (CInt _) => Raise JWTClaimsError
  | _ => Ok ()
  end.

(** No access token is passed: an [at_hash] claim cannot be checked. *)
Definition validate_at_hash (claims : gmap string Claim) : Result () :=
  match claims !! "at_hash" with
  | Some _ => Raise JWTClaimsError
  | None => Ok ()
  end.

Definition validate_claims (now : Z) (claims : gmap string Claim)
  : Result () :=
  _ ← validate_iat claims;
  _ ← validate_nbf now claims;
  _ ← validate_exp now claims;
  _ ← validate_aud claims;
  _ ← validate_str "sub" claims;
  _ ← validate_str "jti" claims;
  validate_at_hash claims.

(** [jose.jwt.decode(token, key, algorithms)] at clock reading [now]. *)
Definition jwt_decode (now : Z) (token : Token) (key : string)
    (algorithms : list string) : Result (gmap string Claim) :=
  match token with
  | Malformed _ => Raise JWTError
  | Compact alg claims signature =>
      if decide (alg ∈ algorithms) then
        if decide (signature = {| signed_alg := alg; signed_key := key;
                                  signed_claims := claims |})
        then _ ← validate_claims now claims; Ok claims
        else Raise JWTError
      else Raise JWTError
  end.

Section jwt_handler.
(** The process-wide configuration read from the environment. *)
Context (SECRET_KEY : string) (ACCESS_TOKEN_EXPIRE_MINUTES : Z).

(** [expires_delta] is a [timedelta] in seconds; a zero one is false
    in Python and falls to the configured default.  [utcnow] is read
    once for [exp] and once for [iat]. *)
Definition create_access_token (data : gmap string Claim)
    (expires_delta : option Z) (utcnow : Clock) : Token :=
  let to_encode := data in
  let expire :=
    if truthy_int expires_delta
    then utcnow 0%nat + default 0 expires_delta
    else utcnow 0%nat + 60 * ACCESS_TOKEN_EXPIRE_MINUTES in
  let to_encode :=
    <["iat" := CInt (utcnow 1%nat)]> (<["exp" := CInt expire]> to_encode) in
  jwt_encode to_encode SECRET_KEY ALGORITHM.

Definition verify_token (now : Z) (token : Token)
  : option (gmap string Claim) :=
  match jwt_decode now token SECRET_KEY [ALGORITHM] with
  | Ok payload => Some payload
  | Raise _ => None  (* every exception of the decoder is a JWTError *)
  end.

(** [payload.get("sub")]; a decoded payload has a string there. *)
Definition decode_token (now : Z) (token : Token) : option string :=
  match verify_token now token with
  | None => None
  | Some payload =>
      match payload !! "sub" with
      | Some (CStr email) => Some email
      | _ => None
      end
  end.

Definition get_token_expiration_time : Z := ACCESS_TOKEN_EXPIRE_MINUTES.

(** [utcnow 0] is the reading the decoder makes, [utcnow 1] the one
    the comparison makes; [utcoffset] is the offset of the host's
    zone, which [timestamp()] applies to the naive [utcnow()]. *)
Definition is_token_expired (utcoffset : Z) (utcnow : Clock) (token : Token)
  : bool :=
  match verify_token (utcnow 0%nat) token with
  | None => true
  | Some payload =>
      match payload !! "exp" with
      | None => true
      | Some (CStr _) => true  (* refused by the decoder before *)
      | Some (CInt exp_timestamp) =>
          let current_timestamp := utcnow 1%nat - utcoffset in
          bool_decide (current_timestamp > exp_timestamp)
      end
  end.
End jwt_handler.

(** ** Passwords and the current user ([app/auth/dependencies.py]) *)

(** passlib's [CryptContext(schemes=["bcrypt"])], with the bcrypt
    handler left opaque: [scheme_hash] and [scheme_verify] are the
    handler's [hash] and [verify], [scheme_identify] tells whether the
    handler recognises a string as one of its hashes. *)
Record CryptContext := {
  scheme_hash : string → Result string;
  scheme_identify : string → bool;
  scheme_verify : string → string → Result bool
}.

(** [CryptContext.hash]. *)
Definition context_hash (ctx : CryptContext) (secret : string)
  : Result string :=
  scheme_hash ctx secret.

(** [CryptContext.verify]: the hash is first matched against the
    configured schemes, and one that none of them identifies is an
    error, not a mismatch. *)
Definition context_verify (ctx : CryptContext) (secret hash : string)
  : Result bool :=
  if scheme_identify ctx hash then scheme_verify ctx secret hash
  else Raise UnknownHashError.

Definition is_letter (c : ascii) : bool :=
  let n := nat_of_ascii c in
  ((65 <=? n) && (n <=? 90) || (97 <=? n) && (n <=? 122))%nat.

Definition is_digit (c : ascii) : bool :=
  let n := nat_of_ascii c in ((48 <=? n) && (n <=? 57))%nat.

(** [re.search(class, s)] for a one-character class. *)
Fixpoint re_search (class : ascii → bool) (s : string) : bool :=
  match s with
  | EmptyString => false
  | String c s' => class c || re_search class s'
  end.

Definition lower_char (c : ascii) : ascii :=
  let n := nat_of_ascii c in
  if ((65 <=? n) && (n <=? 90))%nat then ascii_of_nat (n + 32) else c.

(** [str.lower] on ASCII text. *)
Fixpoint lower (s : string) : string :=
  match s with
  | EmptyString => EmptyString
  | String c s' => String (lower_char c) (lower s')
  end.


Definition get_password_validation_errors (password : string) : list string :=
  (if decide (String.length password < 8)%nat
   then ["Password must be at least 8 characters long"] else [])
  ++ (if decide (100 < String.length password)%nat
      then ["Password must be at most 100 characters long"] else [])
  ++ (if negb (re_search is_letter password)
      then ["Password must contain at least one letter"] else [])
  ++ (if negb (re_search is_digit password)
      then ["Password must contain at least one number"] else []).

(** The [Authorization] header as [get_authorization_scheme_param]
    splits it: no header, or a scheme and what follows the first space
    (nothing, or a credential). *)
Definition Authorization : Type := option (string * option Token).

(** [fastapi.security.HTTPBearer.__call__]. *)
Definition HTTPBearer (auto_error : bool) (authorization : Authorization)
  : Result (option Token) :=
  match authorization with
  | Some (scheme, Some credentials) =>
      if decide (scheme = "") then
        if auto_error
        then Raise (HTTPException HTTP_403_FORBIDDEN "Not authenticated")
        else Ok None
      else if decide (lower scheme ≠ "bearer") then
        if auto_error
        then Raise (HTTPException HTTP_403_FORBIDDEN
                                  "Invalid authentication credentials")
        else Ok None
      else Ok (Some credentials)
  | _ =>
      if auto_error
      then Raise (HTTPException HTTP_403_FORBIDDEN "Not authenticated")
      else Ok None
  end.

Section dependencies.
Context (SECRET_KEY : string) (pwd_context : CryptContext).

Definition hash_password (password : string) : Result string :=
  context_hash pwd_context password.

Definition verify_password (plain_password hashed_password : string)
  : Result bool :=
  context_verify pwd_context plain_password hashed_password.

(** The body of [get_current_user], entered with the credential the
    [security] dependency extracted.  Both [try] blocks turn every
    exception into [AuthenticationError]. *)
Definition get_current_user (now : Z) (credentials : Token) (db : DB)
  : Result (Z * User.t) :=
  (* Decode token to get user email *)
  match decode_token SECRET_KEY now credentials with
  | None => Raise (AuthenticationError "Could not validate credentials")
  | Some email =>
      (* Get user from database *)
      match scalar_one_or_none (select_user_by_email email db) with
      | Ok (Some user) => Ok user
      | Ok None => Raise (AuthenticationError "Could not validate credentials")
      | Raise _ => Raise (AuthenticationError "Could not validate credentials")
      end
  end.

(** [Depends(get_current_user)]: FastAPI first solves the
    sub-dependency [security = HTTPBearer()], whose exception ends
    the request before [get_current_user] is entered. *)
Definition current_user_required (now : Z) (authorization : Authorization)
    (db : DB) : Result (Z * User.t) :=
  match HTTPBearer true authorization with
  | Raise e => Raise e
  | Ok None => Raise (HTTPException HTTP_403_FORBIDDEN "Not authenticated")
  | Ok (Some credentials) => get_current_user now credentials db
  end.

Definition get_current_user_optional (now : Z) (authorization : Authorization)
    (db : DB) : option (Z * User.t) :=
  match HTTPBearer false authorization with
  | Ok (Some credentials) =>
      match decode_token SECRET_KEY now credentials with
      | None => None
      | Some email =>
          match scalar_one_or_none (select_user_by_email email db) with
          | Ok user => user
          | Raise _ => None
          end
      end
  | _ => None
  end.
End dependencies.

(** ** Authentication routes ([app/routes/auth.py]) *)

Record AccessToken := {
  access_token : Token;
  token_type : string;
  expires_in : Z
}.

Section auth_routes.
Context (SECRET_KEY : string) (ACCESS_TOKEN_EXPIRE_MINUTES : Z)
        (pwd_context : CryptContext).

Definition register_user (email password : string) (utcnow : Clock) (db : DB)
  : Result (Z * User.t) * DB :=
  (* Validate password strength *)
  if decide (get_password_validation_errors password ≠ [])
  then (Raise (ValidationError "Password validation failed"), db)
  else
    (* Check if email already exists *)
    match scalar_one_or_none (select_user_by_email email db) with
    | Raise _ =>
        (Raise (HTTPException HTTP_500_INTERNAL_SERVER_ERROR
                              "Database error occurred"), db)
    | Ok (Some _) => (Raise (ConflictError "Email already registered"), db)
    | Ok None =>
        (* Hash password and create user *)
        match hash_password pwd_context password with
        | Raise _ =>
            (Raise (HTTPException HTTP_500_INTERNAL_SERVER_ERROR
                                  "Failed to create user account"), db)
        | Ok hashed_password =>
            let new_user :=
              User.mk email hashed_password (utcnow 0%nat) (utcnow 1%nat) in
            let new_id := next_id (users db) in
            (Ok (new_id, new_user),
             set_users (<[new_id := new_user]> (users db)) db)
        end
    end.

Definition login_user (email password : string) (utcnow : Clock) (db : DB)
  : Result AccessToken * DB :=
  (* Find user by email *)
  match scalar_one_or_none (select_user_by_email email db) with
  | Raise _ =>
      (Raise (HTTPException HTTP_500_INTERNAL_SERVER_ERROR
                            "Authentication failed"), db)
  | Ok None => (Raise (AuthenticationError "Invalid email or password"), db)
  | Ok (Some user) =>
      (* Verify password *)
      match verify_password pwd_context password
                            (User.hashed_password user.2) with
      | Raise _ =>
          (Raise (HTTPException HTTP_500_INTERNAL_SERVER_ERROR
                                "Authentication failed"), db)
      | Ok false =>
          (Raise (AuthenticationError "Invalid email or password"), db)
      | Ok true =>
          (* Create JWT token *)
          (Ok {| access_token :=
                   create_access_token SECRET_KEY ACCESS_TOKEN_EXPIRE_MINUTES
                     {["sub" := CStr (User.email user.2)]} None utcnow;
                 token_type := "bearer";
                 expires_in :=
                   get_token_expiration_time ACCESS_TOKEN_EXPIRE_MINUTES * 60 |},
           db)
      end
  end.

Definition get_current_user_info (current_user : Z * User.t) (db : DB)
  : Result (Z * User.t) * DB :=
  (Ok current_user, db).
End auth_routes.

(** ** The authenticated surface ([app/main.py]) *)

(** The routes that depend on [get_current_user]. *)
Inductive Endpoint :=
| GET_auth_me
| POST_collections (collection_data : WishlistCollectionCreate)
| GET_collections
| GET_collection (collection_id : Z)
| PUT_collection (collection_id : Z) (collection_data : WishlistCollectionUpdate)
| DELETE_collection (collection_id : Z)
| POST_collection_set_default (collection_id : Z)
| GET_wishlist (collection_id : option Z)
| POST_wishlist (item_data : WishlistItemCreate)
| GET_wishlist_item (item_id : Z)
| PUT_wishlist_item (item_id : Z) (item_data : WishlistItemUpdate)
| DELETE_wishlist_item (item_id : Z)
| GET_price_history (item_id : Z)
| POST_price_history (item_id : Z) (price : Z).

Inductive Response :=
| NoContent
| UserBody (user : Z * User.t)
| CollectionBody (collection : CollectionResponse)
| CollectionListBody (collections : list CollectionResponse)
| CollectionWithItemsBody (collection : CollectionResponse)
                          (items : gmap Z WishlistItem.t)
| ItemBody (item : Z * WishlistItem.t)
| ItemListBody (items : gmap Z WishlistItem.t)
| PriceHistoryBody (entry : Z * PriceHistory.t)
| PriceHistoryListBody (entries : gmap Z PriceHistory.t).

Definition respond {A} (body : A → Response) (r : Result A * DB)
  : Result Response * DB :=
  match r with
  | (Ok a, db) => (Ok (body a), db)
  | (Raise e, db) => (Raise e, db)
  end.

(** Route dispatch.  [wishlist.router] is included before
    [price_history.router], and both declare
    [GET /wishlist/{item_id}/price-history]: the first match,
    [get_item_price_history], serves it. *)
Definition serve (endpoint : Endpoint) (current_user : Z * User.t)
    (utcnow : Clock) (db : DB) : Result Response * DB :=
  match endpoint with
  | GET_auth_me =>
      respond UserBody (get_current_user_info current_user db)
  | POST_collections collection_data =>
      respond CollectionBody
              (create_collection collection_data current_user utcnow db)
  | GET_collections =>
      respond CollectionListBody (get_collections current_user db)
  | GET_collection collection_id =>
      respond (λ r, CollectionWithItemsBody r.1 r.2)
              (get_collection collection_id current_user db)
  | PUT_collection collection_id collection_data =>
      respond CollectionBody
              (update_collection collection_id collection_data current_user
                                 utcnow db)
  | DELETE_collection collection_id =>
      respond (λ _, NoContent) (delete_collection collection_id current_user db)
  | POST_collection_set_default collection_id =>
      respond CollectionBody
              (set_default_collection collection_id current_user utcnow db)
  | GET_wishlist collection_id =>
      respond ItemListBody (get_user_wishlist collection_id current_user db)
  | POST_wishlist item_data =>
      respond ItemBody (create_wishlist_item item_data current_user utcnow db)
  | GET_wishlist_item item_id =>
      respond ItemBody (get_wishlist_item item_id current_user db)
  | PUT_wishlist_item item_id item_data =>
      respond ItemBody
              (update_wishlist_item item_id item_data current_user utcnow db)
  | DELETE_wishlist_item item_id =>
      respond (λ _, NoContent) (delete_wishlist_item item_id current_user db)
  | GET_price_history item_id =>
      respond PriceHistoryListBody
              (get_item_price_history item_id current_user db)
  | POST_price_history item_id price =>
      respond PriceHistoryBody
              (create_price_history_entry item_id price current_user utcnow db)
  end.

(** The databases the API can produce from an empty one: by
    registrations and by requests of users the guard resolved, who are
    rows of the [users] table. *)
Inductive reachable (pwd_context : CryptContext) : DB → Prop :=
| reachable_empty : reachable pwd_context empty_db
| reachable_register db email password utcnow :
    reachable pwd_context db →
    reachable pwd_context
              (register_user pwd_context email password utcnow db).2
| reachable_serve db endpoint current_user utcnow :
    reachable pwd_context db →
    users db !! current_user.1 = Some current_user.2 →
    reachable pwd_context (serve endpoint current_user utcnow db).2.

(** ** Predicates the properties are stated with *)

(** The number of collections a user owns. *)
Definition collection_count (user_id : Z) (db : DB) : nat :=
  size (collections_of user_id db).

(** The owner of the collection stored under a key, if any. *)
Definition owner_at (table : gmap Z WishlistCollection.t) (k : Z) : option Z :=
  WishlistCollection.user_id <$> table !! k.

(** At most one collection of each owner is flagged default. *)
Definition defaults_exclusive (table : gmap Z WishlistCollection.t) : Prop :=
  ∀ i j c d,
    table !! i = Some c → table !! j = Some d →
    WishlistCollection.user_id c = WishlistCollection.user_id d →
    WishlistCollection.is_default c = true →
    WishlistCollection.is_default d = true →
    i = j.

Definition at_most_one_default (db : DB) : Prop :=
  defaults_exclusive (wishlist_collections db).

(** The default collections of a user. *)
Definition defaults_of (user_id : Z) (db : DB) : gmap Z WishlistCollection.t :=
  filter (λ kv, WishlistCollection.is_default kv.2 = true)
         (collections_of user_id db).

(** Every price-history row belongs to an item that exists. *)
Definition price_history_attached (db : DB) : Prop :=
  ∀ k entry,
    price_history db !! k = Some entry →
    is_Some (wishlist_items db !! PriceHistory.wishlist_item_id entry).

(** Every collection belongs to a user that exists. *)
Definition collections_attached (db : DB) : Prop :=
  ∀ k c,
    wishlist_collections db !! k = Some c →
    is_Some (users db !! WishlistCollection.user_id c).

(** Two users never share an email (the unique index on [users.email]). *)
Definition unique_emails (db : DB) : Prop :=
  ∀ i j u v,
    users db !! i = Some u → users db !! j = Some v →
    User.email u = User.email v → i = j.

(** A 404- or 403-class answer. *)
Definition not_found_or_forbidden (r : Result Response) : Prop :=
  match r with
  | Raise e => response_status e = HTTP_404_NOT_FOUND
               ∨ response_status e = HTTP_403_FORBIDDEN
  | Ok _ => False
  end.

(** No owner has two collections of the same name (the check both
    [create_collection] and [update_collection] make before writing). *)
Definition unique_names (db : DB) : Prop :=
  ∀ i j c d,
    wishlist_collections db !! i = Some c →
    wishlist_collections db !! j = Some d →
    WishlistCollection.user_id c = WishlistCollection.user_id d →
    WishlistCollection.name c = WishlistCollection.name d →
    i = j.

(** Every item sits in a collection of its own owner, or carries the
    collection id 0, which the truth test of [update_wishlist_item]
    lets through unchecked. *)
Definition items_in_own_collections (db : DB) : Prop :=
  ∀ k item,
    wishlist_items db !! k = Some item →
    WishlistItem.collection_id item = 0
    ∨ owner_at (wishlist_collections db) (WishlistItem.collection_id item)
      = Some (WishlistItem.user_id item).

(** Collection keys start at 1. *)
Definition collection_keys_positive (db : DB) : Prop :=
  ∀ k, is_Some (wishlist_collections db !! k) → (1 ≤ k)%Z.

(** What the [validate_name] validator of [WishlistCollectionUpdate]
    guarantees of a name that is given: it is not empty. *)
Definition name_validated (collection_data : WishlistCollectionUpdate) : Prop :=
  update_name collection_data ≠ Given (Some "").

(** ** Sample data

    Two registered users and a few rows, built by running the handlers
    on the empty database; the worked examples below start from them. *)

Module Sample.
Definition SECRET_KEY : string := "your-super-secret-jwt-key-here".
Definition ACCESS_TOKEN_EXPIRE_MINUTES : Z := 30.

Definition utcnow : Clock := λ n, 1700000000 + Z.of_nat n.

(** A stand-in for the bcrypt handler that keeps the shape of its
    hashes: identified by their prefix, compared as a whole. *)
Definition pwd_context : CryptContext := {|
  scheme_hash := λ secret, Ok ("$2b$12$" +:+ secret);
  scheme_identify := λ hash,
    String.prefix "$2a$" hash || String.prefix "$2b$" hash
    || String.prefix "$2y$" hash;
  scheme_verify := λ secret hash,
    Ok (bool_decide (hash = "$2b$12$" +:+ secret))
|}.

Definition alice : Z * User.t :=
  (1, User.mk "a@x.com" "$2b$12$password123" 1700000000 1700000001).
Definition bob : Z * User.t :=
  (2, User.mk "b@x.com" "$2b$12$hunter2hunter2" 1700000000 1700000001).

Definition registered : DB :=
  (register_user pwd_context "b@x.com" "hunter2hunter2" utcnow
     (register_user pwd_context "a@x.com" "password123" utcnow empty_db).2).2.

Definition new_collection (name : string) : WishlistCollectionCreate :=
  {| create_name := name; create_description := None;
     create_color := None; create_is_default := Some false |}.

Definition new_item (title : string) (price collection_id : Z)
  : WishlistItemCreate :=
  {| item_title := title; item_product_url := None;
     item_initial_price := price; item_currency := "USD";
     item_collection_id := collection_id |}.

(** Alice owns collection 1, Bob collection 2. *)
Definition one_collection_each : DB :=
  (create_collection (new_collection "Gifts") bob utcnow
     (create_collection (new_collection "Books") alice utcnow registered).2).2.

(** Alice adds collection 3. *)
Definition two_collections : DB :=
  (create_collection (new_collection "Music") alice utcnow
                     one_collection_each).2.

(** Item 1 is Alice's, in collection 1; item 2 is Bob's, in
    collection 2; item 3 is Alice's, in collection 3. *)
Definition with_items : DB :=
  (create_wishlist_item (new_item "Z" 500 3) alice utcnow
     (create_wishlist_item (new_item "Y" 2500 2) bob utcnow
        (create_wishlist_item (new_item "X" 1000 1) alice utcnow
                              two_collections).2).2).2.
End Sample.

(** * Properties *)

(** ** Tables, keys and queries *)

Section tables.
Context {A : Type}.
Implicit Types (table : gmap Z A).

Lemma max_id_ge table k x : table !! k = Some x → (k ≤ max_id table)%Z.
Proof.
  intros Hk. unfold max_id.
  assert (Hin : k ∈ (map_to_list table).*1).
  { apply list_elem_of_fmap. exists (k, x). split; [done|].
    by apply elem_of_map_to_list. }
  clear Hk. revert Hin. generalize ((map_to_list table).*1). intros keys.
  induction 1; cbn [foldr]; lia.
Qed.

Lemma max_id_nonneg table : (0 ≤ max_id table)%Z.
Proof. unfold max_id. induction ((map_to_list table).*1); cbn [foldr]; lia. Qed.

Lemma next_id_fresh table : table !! next_id table = None.
Proof.
  destruct (table !! next_id table) as [x|] eqn:Hk; [|done].
  apply max_id_ge in Hk. unfold next_id in Hk. lia.
Qed.

Lemma next_id_positive table : (1 ≤ next_id table)%Z.
Proof. unfold next_id. pose proof (max_id_nonneg table). lia. Qed.

Lemma size_ge_1_lookup table : (1 ≤ size table)%nat ↔ ∃ k x, table !! k = Some x.
Proof.
  split.
  - intros Hsz. apply map_choose. intros ->. rewrite map_size_empty in Hsz. lia.
  - intros (k & x & Hk).
    assert (size table ≠ 0%nat); [|lia].
    apply map_size_ne_0_lookup. eauto.
Qed.

Context (P : Z * A → Prop) `{!∀ x, Decision (P x)}.

Lemma scalar_select_where_None table :
  scalar_one_or_none (select_where P table) = Ok None ↔ filter P table = ∅.
Proof.
  unfold select_where. rewrite <-map_to_list_empty_iff.
  destruct (map_to_list _) as [|? [|? ?]]; simpl; split; congruence.
Qed.

Lemma scalar_select_where_Some table row :
  scalar_one_or_none (select_where P table) = Ok (Some row) →
  table !! row.1 = Some row.2 ∧ P row.
Proof.
  unfold select_where. intros Hrow.
  assert (Hin : row ∈ map_to_list (filter P table)).
  { destruct (map_to_list _) as [|? [|? ?]]; simplify_eq/=. set_solver. }
  destruct row as [k x]. apply elem_of_map_to_list in Hin.
  by apply map_lookup_filter_Some in Hin.
Qed.
End tables.

Lemma select_collection_Some collection_id user_id db collection :
  select_collection collection_id user_id db = Some collection ↔
  wishlist_collections db !! collection_id = Some collection
  ∧ WishlistCollection.user_id collection = user_id.
Proof.
  unfold select_collection.
  destruct (wishlist_collections db !! collection_id) as [c|]; [|naive_solver].
  case_decide; naive_solver.
Qed.

Lemma select_item_of_Some item_id user_id db item :
  select_item_of item_id user_id db = Some item ↔
  wishlist_items db !! item_id = Some item
  ∧ WishlistItem.user_id item = user_id.
Proof.
  unfold select_item_of.
  destruct (wishlist_items db !! item_id) as [c|]; [|naive_solver].
  case_decide; naive_solver.
Qed.

Lemma lookup_collections_of user_id db k c :
  collections_of user_id db !! k = Some c ↔
  wishlist_collections db !! k = Some c
  ∧ WishlistCollection.user_id c = user_id.
Proof. unfold collections_of. by rewrite map_lookup_filter_Some. Qed.

Lemma collection_count_ge_1 user_id db :
  (1 ≤ collection_count user_id db)%nat ↔
  ∃ k c, wishlist_collections db !! k = Some c
         ∧ WishlistCollection.user_id c = user_id.
Proof.
  unfold collection_count. rewrite size_ge_1_lookup.
  by setoid_rewrite lookup_collections_of.
Qed.

Lemma lookup_unset_defaults user_id except now table k :
  unset_defaults user_id except now table !! k =
  (λ c, if decide (WishlistCollection.user_id c = user_id
                   ∧ WishlistCollection.is_default c = true
                   ∧ Some k ≠ except)
        then touch_collection now (with_is_default false c) else c)
    <$> table !! k.
Proof.
  unfold unset_defaults. rewrite map_lookup_imap.
  by destruct (table !! k).
Qed.

Lemma unset_defaults_Some user_id except now table k c' :
  unset_defaults user_id except now table !! k = Some c' →
  ∃ c, table !! k = Some c
       ∧ WishlistCollection.user_id c' = WishlistCollection.user_id c
       ∧ (WishlistCollection.user_id c ≠ user_id → c' = c)
       ∧ (WishlistCollection.is_default c' = true →
          WishlistCollection.is_default c = true
          ∧ (WishlistCollection.user_id c = user_id → Some k = except)).
Proof.
  rewrite lookup_unset_defaults.
  destruct (table !! k) as [c|]; [|done]. simpl. intros [= <-].
  exists c. split; [done|].
  case_decide as Hc; simpl.
  - naive_solver.
  - repeat split; try done. intros Hu.
    destruct (decide (Some k = except)); [done|]. naive_solver.
Qed.

Lemma unset_defaults_is_Some user_id except now table k :
  is_Some (unset_defaults user_id except now table !! k) ↔ is_Some (table !! k).
Proof. rewrite lookup_unset_defaults. by rewrite fmap_is_Some. Qed.

Lemma unset_defaults_next_id user_id except now table :
  unset_defaults user_id except now table
    !! next_id (unset_defaults user_id except now table) = None.
Proof. apply next_id_fresh. Qed.

(** ** Deleting a collection *)

Lemma collection_count_select collection_id user_id db collection :
  select_collection collection_id user_id db = Some collection →
  (1 ≤ collection_count user_id db)%nat.
Proof.
  intros Hsel%select_collection_Some. apply collection_count_ge_1.
  naive_solver.
Qed.

Lemma lookup_delete_collection_items collection_id db k item :
  wishlist_items (delete_collection_cascade collection_id db) !! k = Some item ↔
  wishlist_items db !! k = Some item
  ∧ WishlistItem.collection_id item ≠ collection_id.
Proof. simpl. by rewrite map_lookup_filter_Some. Qed.

Lemma lookup_delete_collection_entries collection_id db k entry :
  price_history (delete_collection_cascade collection_id db) !! k = Some entry ↔
  price_history db !! k = Some entry
  ∧ ∀ item,
      wishlist_items db !! PriceHistory.wishlist_item_id entry = Some item →
      WishlistItem.collection_id item ≠ collection_id.
Proof.
  simpl. rewrite map_lookup_filter_Some. simpl.
  unfold entry_in_collection.
  destruct (wishlist_items db !! PriceHistory.wishlist_item_id entry);
    naive_solver.
Qed.

(** C5. Deleting the only collection a user owns raises ConflictError
    and leaves the database as it was.  Deleting one of several
    succeeds: the collection is gone, exactly the items that were in
    it are gone, exactly the price-history rows of those items are
    gone, and every other collection, item, price-history row and
    user is unchanged. *)
Theorem delete_collection_guard_and_cascade
    collection_id current_user db collection :
  select_collection collection_id current_user.1 db = Some collection →
  ((collection_count current_user.1 db ≤ 1)%nat →
   delete_collection collection_id current_user db =
     (Raise (ConflictError "Cannot delete the last remaining collection"), db))
  ∧ ((1 < collection_count current_user.1 db)%nat →
     ∃ db',
       delete_collection collection_id current_user db = (Ok (), db')
       ∧ users db' = users db
       ∧ wishlist_collections db' !! collection_id = None
       ∧ (∀ k, k ≠ collection_id →
               wishlist_collections db' !! k = wishlist_collections db !! k)
       ∧ (∀ k item,
            wishlist_items db' !! k = Some item ↔
            wishlist_items db !! k = Some item
            ∧ WishlistItem.collection_id item ≠ collection_id)
       ∧ (∀ k entry,
            price_history db' !! k = Some entry ↔
            price_history db !! k = Some entry
            ∧ ∀ item,
                wishlist_items db !! PriceHistory.wishlist_item_id entry
                  = Some item →
                WishlistItem.collection_id item ≠ collection_id)).
Proof.
  intros Hsel. unfold delete_collection. rewrite Hsel.
  fold (collection_count current_user.1 db).
  split; intros Hcount.
  - by rewrite decide_True.
  - rewrite decide_False by lia.
    exists (delete_collection_cascade collection_id db).
    split_and!; try done.
    + simpl. apply lookup_delete_eq.
    + intros k Hk. simpl. by apply lookup_delete_ne.
    + apply lookup_delete_collection_items.
    + apply lookup_delete_collection_entries.
Qed.

Lemma delete_collection_guard_and_cascade_witness :
  ∃ db',
    delete_collection 1 Sample.alice Sample.with_items = (Ok (), db')
    ∧ wishlist_collections db' !! 1 = None
    ∧ wishlist_items db' !! 1 = None
    ∧ price_history db' !! 1 = None
    ∧ is_Some (wishlist_items db' !! 3).
Proof.
  destruct (delete_collection_guard_and_cascade 1 Sample.alice
              Sample.with_items
              (WishlistCollection.mk 1 "Books" None None false
                 1700000001 1700000002))
    as [_ Hcascade].
  { vm_compute. reflexivity. }
  destruct Hcascade as (db' & Hrun & _ & Hgone & _ & Hitems & Hentries).
  { vm_compute. lia. }
  exists db'. split; [exact Hrun|]. split; [exact Hgone|].
  split; [|split].
  - destruct (wishlist_items db' !! 1) as [item|] eqn:Hk; [|done].
    apply Hitems in Hk as [Hk Hne]. vm_compute in Hk. by simplify_eq.
  - destruct (price_history db' !! 1) as [entry|] eqn:Hk; [|done].
    apply Hentries in Hk as [Hk Hne]. vm_compute in Hk. simplify_eq.
    exfalso. eapply Hne; [vm_compute; reflexivity|done].
  - eexists. apply Hitems. split; [vm_compute; reflexivity|done].
Defined.

(** ** Tables of collections: owners and default flags *)

Lemma flush_collection_fields now old new :
  WishlistCollection.user_id (flush_collection now old new)
    = WishlistCollection.user_id new
  ∧ WishlistCollection.is_default (flush_collection now old new)
    = WishlistCollection.is_default new.
Proof. unfold flush_collection. case_decide; by subst. Qed.

Lemma apply_collection_update_fields collection_data collection updated :
  apply_collection_update collection_data collection = Ok updated →
  WishlistCollection.user_id updated = WishlistCollection.user_id collection
  ∧ WishlistCollection.is_default updated =
      default (WishlistCollection.is_default collection)
              (field_value (update_is_default collection_data))
  ∧ update_is_default collection_data ≠ Given None.
Proof.
  unfold apply_collection_update, setattr_required. intros Happly.
  repeat case_match; simplify_eq/=; done.
Qed.

Lemma owner_at_unset_defaults user_id except now table k :
  owner_at (unset_defaults user_id except now table) k = owner_at table k.
Proof.
  unfold owner_at. rewrite lookup_unset_defaults.
  destruct (table !! k) as [c|]; [|done]. simpl. by case_decide.
Qed.

Lemma owner_at_insert table k c k' :
  owner_at (<[k := c]> table) k' =
  if decide (k = k') then Some (WishlistCollection.user_id c)
  else owner_at table k'.
Proof.
  unfold owner_at. rewrite lookup_insert. by case_decide.
Qed.

Lemma collection_count_owner_at user_id db :
  (1 ≤ collection_count user_id db)%nat ↔
  ∃ k, owner_at (wishlist_collections db) k = Some user_id.
Proof.
  rewrite collection_count_ge_1. unfold owner_at. split.
  - intros (k & c & Hk & Hu). exists k. by rewrite Hk, <-Hu.
  - intros (k & Hk). destruct (wishlist_collections db !! k) as [c|] eqn:Hc;
      simplify_eq/=. eauto.
Qed.

Lemma defaults_exclusive_insert table k c :
  defaults_exclusive table →
  (WishlistCollection.is_default c = true →
   ∃ old, table !! k = Some old
          ∧ WishlistCollection.is_default old = true
          ∧ WishlistCollection.user_id old = WishlistCollection.user_id c) →
  defaults_exclusive (<[k := c]> table).
Proof.
  intros Hex Hold i j ci cj Hi Hj Hu Hdi Hdj.
  destruct (decide (i = j)) as [|Hne]; [done|].
  destruct (decide (k = i)) as [->|Hki].
  - rewrite lookup_insert_eq in Hi. rewrite lookup_insert_ne in Hj by done.
    simplify_eq. destruct (Hold Hdi) as (old & Hk & Hd & Hou).
    apply (Hex i j old cj); congruence.
  - rewrite lookup_insert_ne in Hi by done.
    destruct (decide (k = j)) as [->|Hkj].
    + rewrite lookup_insert_eq in Hj. simplify_eq.
      destruct (Hold Hdj) as (old & Hk & Hd & Hou).
      apply (Hex i j ci old); congruence.
    + rewrite lookup_insert_ne in Hj by done. by apply (Hex i j ci cj).
Qed.

Lemma defaults_exclusive_unset user_id except now table :
  defaults_exclusive table →
  defaults_exclusive (unset_defaults user_id except now table).
Proof.
  intros Hex i j ci cj Hi Hj Hu Hdi Hdj.
  apply unset_defaults_Some in Hi as (ci0 & Hi & Hui & _ & Hdi0).
  apply unset_defaults_Some in Hj as (cj0 & Hj & Huj & _ & Hdj0).
  apply (Hex i j ci0 cj0); naive_solver congruence.
Qed.

(** Clear-all-then-set-one: after the competing flags of [user_id] are
    cleared, writing any row of that owner at [k] keeps exclusivity. *)
Lemma defaults_exclusive_set_one user_id except now table k c :
  defaults_exclusive table →
  WishlistCollection.user_id c = user_id →
  except = None ∨ except = Some k →
  defaults_exclusive (<[k := c]> (unset_defaults user_id except now table)).
Proof.
  intros Hex Hc Hexcept i j ci cj Hi Hj Hu Hdi Hdj.
  destruct (decide (i = j)) as [|Hne]; [done|].
  destruct (decide (k = i)) as [->|Hki].
  - rewrite lookup_insert_eq in Hi. rewrite lookup_insert_ne in Hj by done.
    simplify_eq.
    apply unset_defaults_Some in Hj as (cj0 & Hj & Huj & _ & Hdj0).
    destruct (Hdj0 Hdj) as [_ Hk]. naive_solver congruence.
  - rewrite lookup_insert_ne in Hi by done.
    destruct (decide (k = j)) as [->|Hkj].
    + rewrite lookup_insert_eq in Hj. simplify_eq.
      apply unset_defaults_Some in Hi as (ci0 & Hi & Hui & _ & Hdi0).
      destruct (Hdi0 Hdi) as [_ Hk]. naive_solver congruence.
    + rewrite lookup_insert_ne in Hj by done.
      eapply (defaults_exclusive_unset _ _ _ _ Hex i j ci cj); done.
Qed.

Lemma defaults_exclusive_subtable table table' :
  defaults_exclusive table →
  (∀ k c, table' !! k = Some c → table !! k = Some c) →
  defaults_exclusive table'.
Proof. intros Hex Hsub i j ci cj Hi Hj. apply Hex; auto. Qed.

(** ** What each handler leaves behind *)

Lemma respond_db {A} (body : A → Response) (r : Result A * DB) :
  (respond body r).2 = r.2.
Proof. by destruct r as [[a|e] db]. Qed.

Lemma respond_Raise {A} (body : A → Response) (r : Result A * DB) e db' :
  respond body r = (Raise e, db') ↔ r = (Raise e, db').
Proof. destruct r as [[a|e'] db]; simpl; naive_solver. Qed.

Lemma create_collection_Ok collection_data current_user utcnow db r db' :
  create_collection collection_data current_user utcnow db = (Ok r, db') →
  let table :=
    if truthy_bool (create_is_default collection_data)
    then unset_defaults current_user.1 None (utcnow 0%nat)
                        (wishlist_collections db)
    else wishlist_collections db in
  resp_id r = next_id table
  ∧ WishlistCollection.user_id (resp_collection r) = current_user.1
  ∧ WishlistCollection.is_default (resp_collection r)
    = default false (create_is_default collection_data)
  ∧ db' = set_collections (<[resp_id r := resp_collection r]> table) db.
Proof.
  unfold create_collection. intros Hrun.
  repeat case_match; simplify_eq/=; done.
Qed.

Lemma update_collection_Ok
    collection_id collection_data current_user utcnow db r db' :
  update_collection collection_id collection_data current_user utcnow db
    = (Ok r, db') →
  ∃ collection updated,
    select_collection collection_id current_user.1 db = Some collection
    ∧ apply_collection_update collection_data collection = Ok updated
    ∧ resp_collection r = flush_collection (utcnow 1%nat) collection updated
    ∧ db' = set_collections
              (<[collection_id := resp_collection r]>
                 (if truthy_bool (field_value (update_is_default collection_data))
                  then unset_defaults current_user.1 (Some collection_id)
                                      (utcnow 0%nat) (wishlist_collections db)
                  else wishlist_collections db)) db.
Proof.
  unfold update_collection. intros Hrun.
  repeat case_match; simplify_eq/=; by eexists _, _.
Qed.

Lemma delete_collection_Ok collection_id current_user db r db' :
  delete_collection collection_id current_user db = (Ok r, db') →
  (∃ collection,
     select_collection collection_id current_user.1 db = Some collection)
  ∧ (1 < collection_count current_user.1 db)%nat
  ∧ db' = delete_collection_cascade collection_id db.
Proof.
  unfold delete_collection, collection_count. intros Hrun.
  repeat case_match; simplify_eq/=. split_and!; eauto. lia.
Qed.

Lemma set_default_collection_Ok collection_id current_user utcnow db r db' :
  set_default_collection collection_id current_user utcnow db = (Ok r, db') →
  ∃ collection,
    select_collection collection_id current_user.1 db = Some collection
    ∧ WishlistCollection.user_id (resp_collection r) = current_user.1
    ∧ WishlistCollection.is_default (resp_collection r) = true
    ∧ db' = set_collections
              (<[collection_id := resp_collection r]>
                 (unset_defaults current_user.1 None (utcnow 0%nat)
                                 (wishlist_collections db))) db.
Proof.
  unfold set_default_collection. intros Hrun.
  destruct (select_collection _ _ _) as [collection|] eqn:Hsel; simplify_eq/=.
  exists collection. split; [done|].
  pose proof Hsel as [Hk Hu]%select_collection_Some.
  set (table := unset_defaults _ _ _ _).
  destruct (flush_collection_fields (utcnow 1%nat)
              (default collection (table !! collection_id))
              (with_is_default true (default collection (table !! collection_id))))
    as [-> ->].
  split_and!; try done. simpl.
  destruct (table !! collection_id) as [c'|] eqn:Hc'; simpl; [|done].
  apply unset_defaults_Some in Hc' as (c0 & Hc0 & Hu0 & _). congruence.
Qed.

Lemma create_wishlist_item_Ok item_data current_user utcnow db r db' :
  create_wishlist_item item_data current_user utcnow db = (Ok r, db') →
  let entry_id := next_id (price_history db) in
  (∃ collection,
     select_collection (item_collection_id item_data) current_user.1 db
       = Some collection)
  ∧ r.1 = next_id (wishlist_items db)
  ∧ WishlistItem.user_id r.2 = current_user.1
  ∧ WishlistItem.collection_id r.2 = item_collection_id item_data
  ∧ WishlistItem.initial_price r.2 = item_initial_price item_data
  ∧ WishlistItem.current_price r.2 = item_initial_price item_data
  ∧ WishlistItem.created_at r.2 = utcnow 0%nat
  ∧ db' = mkDB (users db) (wishlist_collections db)
               (<[r.1 := r.2]> (wishlist_items db))
               (<[entry_id := PriceHistory.mk r.1 (item_initial_price item_data)
                                              (utcnow 2%nat)]>
                  (price_history db)).
Proof.
  unfold create_wishlist_item. intros Hrun.
  repeat case_match; simplify_eq/=; split_and!; eauto.
Qed.

Lemma apply_item_update_fields item_data item updated :
  apply_item_update item_data item = Ok updated →
  WishlistItem.user_id updated = WishlistItem.user_id item
  ∧ WishlistItem.initial_price updated = WishlistItem.initial_price item
  ∧ WishlistItem.currency updated = WishlistItem.currency item
  ∧ WishlistItem.created_at updated = WishlistItem.created_at item
  ∧ WishlistItem.updated_at updated = WishlistItem.updated_at item
  ∧ setattr_required (update_title item_data) (WishlistItem.title item)
    = Ok (WishlistItem.title updated)
  ∧ setattr_required (update_current_price item_data)
                     (WishlistItem.current_price item)
    = Ok (WishlistItem.current_price updated)
  ∧ setattr_required (update_collection_id item_data)
                     (WishlistItem.collection_id item)
    = Ok (WishlistItem.collection_id updated)
  ∧ WishlistItem.product_url updated
    = setattr_nullable (update_product_url item_data)
                       (WishlistItem.product_url item).
Proof.
  unfold apply_item_update. intros Happly.
  repeat case_match; simplify_eq/=; done.
Qed.

Lemma update_wishlist_item_Ok item_id item_data current_user utcnow db r db' :
  update_wishlist_item item_id item_data current_user utcnow db = (Ok r, db') →
  ∃ item updated,
    wishlist_items db !! item_id = Some item
    ∧ WishlistItem.user_id item = current_user.1
    ∧ apply_item_update item_data item = Ok updated
    ∧ r = (item_id, flush_item (utcnow 0%nat) item updated)
    ∧ db' = set_items (<[item_id := r.2]> (wishlist_items db)) db.
Proof.
  unfold update_wishlist_item, select_item. intros Hrun.
  repeat case_match; simplify_eq/=.
  eexists _, _. split_and!; try done.
  by apply dec_stable.
Qed.

Lemma delete_wishlist_item_Ok item_id current_user db r db' :
  delete_wishlist_item item_id current_user db = (Ok r, db') →
  (∃ item, wishlist_items db !! item_id = Some item
           ∧ WishlistItem.user_id item = current_user.1)
  ∧ db' = delete_item_cascade item_id db.
Proof.
  unfold delete_wishlist_item, select_item. intros Hrun.
  repeat case_match; simplify_eq/=. split; [|done].
  eexists. split; [done|]. by apply dec_stable.
Qed.

Lemma create_price_history_entry_Ok
    item_id price current_user utcnow db r db' :
  create_price_history_entry item_id price current_user utcnow db
    = (Ok r, db') →
  (∃ item, select_item_of item_id current_user.1 db = Some item)
  ∧ r = (next_id (price_history db),
         PriceHistory.mk item_id price (utcnow 0%nat))
  ∧ db' = set_price_history (<[r.1 := r.2]> (price_history db)) db.
Proof.
  unfold create_price_history_entry, except_to_500. intros Hrun.
  repeat case_match; simplify_eq/=; eauto.
Qed.

Lemma register_user_Ok pwd_context email password utcnow db r db' :
  register_user pwd_context email password utcnow db = (Ok r, db') →
  r.1 = next_id (users db)
  ∧ User.email r.2 = email
  ∧ filter (λ kv, User.email kv.2 = email) (users db) = ∅
  ∧ db' = set_users (<[r.1 := r.2]> (users db)) db.
Proof.
  unfold register_user. intros Hrun.
  destruct (decide (_ ≠ [])); simplify_eq/=.
  destruct (scalar_one_or_none _) as [[row|]|] eqn:Hrow; simplify_eq/=.
  apply scalar_select_where_None in Hrow.
  repeat case_match; simplify_eq/=; done.
Qed.

(** A request that raises commits nothing. *)
Lemma serve_Raise_unchanged endpoint current_user utcnow db e db' :
  serve endpoint current_user utcnow db = (Raise e, db') → db' = db.
Proof.
  destruct endpoint; cbn [serve]; intros Hrun%respond_Raise; revert Hrun;
    unfold get_current_user_info, create_collection, get_collections,
      get_collection, update_collection, delete_collection,
      set_default_collection, get_user_wishlist, create_wishlist_item,
      get_wishlist_item, update_wishlist_item, delete_wishlist_item,
      get_item_price_history, create_price_history_entry, except_to_500;
    intros Hrun; repeat case_match; simplify_eq/=; done.
Qed.

Lemma register_user_Raise_unchanged pwd_context email password utcnow db e db' :
  register_user pwd_context email password utcnow db = (Raise e, db') →
  db' = db.
Proof.
  unfold register_user. intros Hrun. repeat case_match; simplify_eq/=; done.
Qed.

Lemma respond_Ok {A} (body : A → Response) (r : Result A * DB) x db' :
  respond body r = (Ok x, db') → ∃ a, r = (Ok a, db') ∧ x = body a.
Proof. destruct r as [[a|e'] db]; simpl; naive_solver. Qed.

(** The handlers that only read. *)
Ltac read_only Hrun :=
  unfold get_current_user_info, get_collections, get_collection,
    get_user_wishlist, get_wishlist_item, get_item_price_history in Hrun;
  repeat case_match; by simplify_eq/=.

Lemma size_gt_1_other {A} (table : gmap Z A) (k0 : Z) :
  (1 < size table)%nat → ∃ k x, k ≠ k0 ∧ table !! k = Some x.
Proof.
  intros Hsz.
  assert (1 ≤ size (delete k0 table))%nat as Hdel.
  { rewrite map_size_delete. destruct (table !! k0); simpl; lia. }
  apply size_ge_1_lookup in Hdel as (k & x & Hk).
  apply lookup_delete_Some in Hk as [? ?]. eauto.
Qed.

Lemma owner_at_Some table k user_id :
  owner_at table k = Some user_id ↔
  ∃ c, table !! k = Some c ∧ WishlistCollection.user_id c = user_id.
Proof.
  unfold owner_at. destruct (table !! k) as [c|]; simpl; naive_solver.
Qed.

Lemma owner_at_if_unset (b : bool) user_id except now table k :
  owner_at (if b then unset_defaults user_id except now table else table) k
  = owner_at table k.
Proof. destruct b; [apply owner_at_unset_defaults|done]. Qed.

Lemma create_collection_owner_at collection_data current_user utcnow db r db' :
  create_collection collection_data current_user utcnow db = (Ok r, db') →
  owner_at (wishlist_collections db) (resp_id r) = None
  ∧ ∀ k, owner_at (wishlist_collections db') k =
         if decide (resp_id r = k) then Some current_user.1
         else owner_at (wishlist_collections db) k.
Proof.
  intros (Hid & Hu & _ & ->)%create_collection_Ok. split.
  - rewrite <-(owner_at_if_unset (truthy_bool (create_is_default collection_data))
                 current_user.1 None (utcnow 0%nat)).
    unfold owner_at. by rewrite Hid, next_id_fresh.
  - intros k. simpl. rewrite owner_at_insert, Hu.
    case_decide; [done|]. apply owner_at_if_unset.
Qed.

Lemma update_collection_owner_at
    collection_id collection_data current_user utcnow db r db' :
  update_collection collection_id collection_data current_user utcnow db
    = (Ok r, db') →
  ∀ k, owner_at (wishlist_collections db') k
       = owner_at (wishlist_collections db) k.
Proof.
  intros (collection & updated & Hsel & Happly & Hr & ->)%update_collection_Ok k.
  apply select_collection_Some in Hsel as [Hk Hu].
  apply apply_collection_update_fields in Happly as (Hu' & _).
  simpl. rewrite owner_at_insert, owner_at_if_unset.
  case_decide as Hkk; [subst k|done].
  rewrite Hr. destruct (flush_collection_fields (utcnow 1%nat) collection updated)
    as [-> _].
  unfold owner_at. rewrite Hk. simpl. congruence.
Qed.

Lemma set_default_collection_owner_at
    collection_id current_user utcnow db r db' :
  set_default_collection collection_id current_user utcnow db = (Ok r, db') →
  ∀ k, owner_at (wishlist_collections db') k
       = owner_at (wishlist_collections db) k.
Proof.
  intros (collection & Hsel & Hu & _ & ->)%set_default_collection_Ok k.
  apply select_collection_Some in Hsel as [Hk Hu'].
  simpl. rewrite owner_at_insert, owner_at_unset_defaults.
  case_decide as Hkk; [subst k|done].
  unfold owner_at. rewrite Hk. simpl. congruence.
Qed.

(** The collections table after a request: what changes is listed by
    the four handlers above; every other route leaves it alone. *)
Lemma serve_collections_cases endpoint current_user utcnow db r db' :
  serve endpoint current_user utcnow db = (Ok r, db') →
  wishlist_collections db' = wishlist_collections db
  ∨ (∃ collection_data a,
       create_collection collection_data current_user utcnow db = (Ok a, db'))
  ∨ (∃ collection_id collection_data a,
       update_collection collection_id collection_data current_user utcnow db
         = (Ok a, db'))
  ∨ (∃ collection_id a,
       delete_collection collection_id current_user db = (Ok a, db'))
  ∨ (∃ collection_id a,
       set_default_collection collection_id current_user utcnow db
         = (Ok a, db')).
Proof.
  destruct endpoint; cbn [serve]; intros (a & Hrun & ->)%respond_Ok.
  all: try (left; read_only Hrun).
  - naive_solver.
  - naive_solver.
  - naive_solver.
  - naive_solver.
  - left. by apply create_wishlist_item_Ok in Hrun as (_&_&_&_&_&_&_&->).
  - left. by apply update_wishlist_item_Ok in Hrun as (?&?&_&_&_&_&->).
  - left. by apply delete_wishlist_item_Ok in Hrun as (_&->).
  - left. by apply create_price_history_entry_Ok in Hrun as (_&_&->).
Qed.

(** Once a user owns a collection, no request of anyone takes the last
    one away. *)
Lemma serve_keeps_a_collection endpoint current_user utcnow db user_id :
  (1 ≤ collection_count user_id db)%nat →
  (1 ≤ collection_count user_id (serve endpoint current_user utcnow db).2)%nat.
Proof.
  destruct (serve endpoint current_user utcnow db) as [[r|e] db'] eqn:Hrun;
    simpl; [|by apply serve_Raise_unchanged in Hrun as ->].
  rewrite !collection_count_owner_at. intros [k Hk].
  apply serve_collections_cases in Hrun
    as [Heq|[(?&?&Hrun)|[(?&?&?&Hrun)|[(cid&?&Hrun)|(?&?&Hrun)]]]].
  - exists k. by rewrite Heq.
  - apply create_collection_owner_at in Hrun as [Hfresh Hrun].
    exists k. rewrite Hrun. case_decide; [congruence|done].
  - exists k. by rewrite (update_collection_owner_at _ _ _ _ _ _ _ Hrun).
  - apply delete_collection_Ok in Hrun as ([c Hsel] & Hcount & ->).
    apply select_collection_Some in Hsel as [Hc Hu]. simpl.
    destruct (decide (user_id = current_user.1)) as [->|Hother].
    + apply (size_gt_1_other _ cid) in Hcount as (k' & c' & Hne & Hk').
      apply lookup_collections_of in Hk' as [Hk' Hu'].
      exists k'. apply owner_at_Some. exists c'.
      by rewrite lookup_delete_ne.
    + exists k. apply owner_at_Some in Hk as (ck & Hck & Huk).
      apply owner_at_Some. exists ck. rewrite lookup_delete_ne; [done|].
      intros ->. congruence.
  - exists k. by rewrite (set_default_collection_owner_at _ _ _ _ _ _ Hrun).
Qed.

Lemma register_user_collections pwd_context email password utcnow db :
  wishlist_collections (register_user pwd_context email password utcnow db).2
  = wishlist_collections db.
Proof.
  destruct (register_user _ _ _ _ _) as [[r|e] db'] eqn:Hrun; simpl.
  - by apply register_user_Ok in Hrun as (_ & _ & _ & ->).
  - by apply register_user_Raise_unchanged in Hrun as ->.
Qed.

(** ** Invariants of the reachable databases *)

Lemma serve_users endpoint current_user utcnow db :
  users (serve endpoint current_user utcnow db).2 = users db.
Proof.
  destruct (serve endpoint current_user utcnow db) as [[r|e] db'] eqn:Hrun;
    simpl; [|by apply serve_Raise_unchanged in Hrun as ->].
  destruct endpoint; cbn [serve] in Hrun;
    apply respond_Ok in Hrun as (a & Hrun & ->).
  all: try read_only Hrun.
  - by apply create_collection_Ok in Hrun as (_&_&_&->).
  - by apply update_collection_Ok in Hrun as (?&?&_&_&_&->).
  - by apply delete_collection_Ok in Hrun as (_&_&->).
  - by apply set_default_collection_Ok in Hrun as (?&_&_&_&->).
  - by apply create_wishlist_item_Ok in Hrun as (_&_&_&_&_&_&_&->).
  - by apply update_wishlist_item_Ok in Hrun as (?&?&_&_&_&_&->).
  - by apply delete_wishlist_item_Ok in Hrun as (_&->).
  - by apply create_price_history_entry_Ok in Hrun as (_&_&->).
Qed.

Lemma serve_at_most_one_default endpoint current_user utcnow db :
  at_most_one_default db →
  at_most_one_default (serve endpoint current_user utcnow db).2.
Proof.
  intros Hex.
  destruct (serve endpoint current_user utcnow db) as [[r|e] db'] eqn:Hrun;
    simpl; [|by apply serve_Raise_unchanged in Hrun as ->].
  unfold at_most_one_default in *.
  apply serve_collections_cases in Hrun
    as [Heq|[(data&?&Hrun)|[(cid&data&?&Hrun)|[(cid&?&Hrun)|(cid&?&Hrun)]]]].
  - by rewrite Heq.
  - apply create_collection_Ok in Hrun as (_ & Hu & Hd & ->). simpl.
    destruct (truthy_bool (create_is_default data)) eqn:Htruthy.
    + apply defaults_exclusive_set_one; auto.
    + apply defaults_exclusive_insert; [done|].
      unfold truthy_bool in Htruthy. congruence.
  - apply update_collection_Ok in Hrun
      as (collection & updated & Hsel & Happly & Hr & ->). simpl.
    apply select_collection_Some in Hsel as [Hk Hu].
    apply apply_collection_update_fields in Happly as (Hu' & Hd' & _).
    destruct (flush_collection_fields (utcnow 1%nat) collection updated)
      as [Hfu Hfd].
    destruct (truthy_bool (field_value (update_is_default data))) eqn:Htruthy.
    + apply defaults_exclusive_set_one; auto. congruence.
    + apply defaults_exclusive_insert; [done|].
      rewrite Hr, Hfd, Hd'. intros Hdefault. exists collection.
      split_and!; [done| |congruence].
      unfold truthy_bool in Htruthy.
      destruct (field_value (update_is_default data)); simpl in *; congruence.
  - apply delete_collection_Ok in Hrun as (_ & _ & ->). simpl.
    apply (defaults_exclusive_subtable (wishlist_collections db)); [done|].
    intros k c [_ ?]%lookup_delete_Some. done.
  - apply set_default_collection_Ok in Hrun as (collection & _ & Hu & _ & ->).
    simpl. apply defaults_exclusive_set_one; auto.
Qed.

Lemma serve_price_history_attached endpoint current_user utcnow db :
  price_history_attached db →
  price_history_attached (serve endpoint current_user utcnow db).2.
Proof.
  intros Hatt.
  destruct (serve endpoint current_user utcnow db) as [[r|e] db'] eqn:Hrun;
    simpl; [|by apply serve_Raise_unchanged in Hrun as ->].
  destruct endpoint; cbn [serve] in Hrun;
    apply respond_Ok in Hrun as (a & Hrun & ->).
  all: try read_only Hrun.
  - by apply create_collection_Ok in Hrun as (_&_&_&->).
  - by apply update_collection_Ok in Hrun as (?&?&_&_&_&->).
  - apply delete_collection_Ok in Hrun as (_&_&->).
    intros k entry [Hentry Hnot]%lookup_delete_collection_entries.
    destruct (Hatt k entry Hentry) as [item Hitem].
    exists item. apply lookup_delete_collection_items. naive_solver.
  - by apply set_default_collection_Ok in Hrun as (?&_&_&_&->).
  - apply create_wishlist_item_Ok in Hrun as (_&_&_&_&_&_&_&->).
    intros k entry. simpl. rewrite lookup_insert. case_decide.
    + intros [= <-]. simpl. rewrite lookup_insert_eq. eauto.
    + intros Hentry. apply lookup_insert_is_Some'. right. by eapply Hatt.
  - apply update_wishlist_item_Ok in Hrun as (?&?&_&_&_&_&->).
    intros k entry Hentry. simpl. apply lookup_insert_is_Some'. right.
    by eapply Hatt.
  - apply delete_wishlist_item_Ok in Hrun as (_&->).
    intros k entry. simpl. intros [Hentry Hne]%map_lookup_filter_Some.
    simpl in Hne. rewrite lookup_delete_ne by done. by eapply Hatt.
  - apply create_price_history_entry_Ok in Hrun as ([item Hitem]&->&->).
    apply select_item_of_Some in Hitem as [Hitem _].
    intros k entry. simpl. rewrite lookup_insert. case_decide.
    + intros [= <-]. simpl. eauto.
    + apply Hatt.
Qed.

Lemma collections_attached_owner_at db :
  collections_attached db ↔
  ∀ k user_id, owner_at (wishlist_collections db) k = Some user_id →
               is_Some (users db !! user_id).
Proof.
  unfold collections_attached. setoid_rewrite owner_at_Some. naive_solver.
Qed.

Lemma serve_collections_attached endpoint current_user utcnow db :
  users db !! current_user.1 = Some current_user.2 →
  collections_attached db →
  collections_attached (serve endpoint current_user utcnow db).2.
Proof.
  intros Huser. rewrite !collections_attached_owner_at. intros Hatt.
  rewrite serve_users.
  destruct (serve endpoint current_user utcnow db) as [[r|e] db'] eqn:Hrun;
    simpl; [|by apply serve_Raise_unchanged in Hrun as ->].
  intros k user_id.
  apply serve_collections_cases in Hrun
    as [Heq|[(data&?&Hrun)|[(cid&data&?&Hrun)|[(cid&?&Hrun)|(cid&?&Hrun)]]]].
  - rewrite Heq. apply Hatt.
  - apply create_collection_owner_at in Hrun as [_ ->].
    case_decide; [|apply Hatt]. intros [= <-]. eauto.
  - rewrite (update_collection_owner_at _ _ _ _ _ _ _ Hrun). apply Hatt.
  - apply delete_collection_Ok in Hrun as (_ & _ & ->). simpl.
    intros (c & [_ Hc]%lookup_delete_Some & Hu)%owner_at_Some.
    apply (Hatt k). apply owner_at_Some. eauto.
  - rewrite (set_default_collection_owner_at _ _ _ _ _ _ Hrun). apply Hatt.
Qed.

Lemma register_user_collections_attached pwd_context email password utcnow db :
  collections_attached db →
  collections_attached (register_user pwd_context email password utcnow db).2.
Proof.
  intros Hatt.
  destruct (register_user _ _ _ _ _) as [[r|e] db'] eqn:Hrun; simpl;
    [|by apply register_user_Raise_unchanged in Hrun as ->].
  apply register_user_Ok in Hrun as (_ & _ & _ & ->).
  intros k c Hc. simpl in *. apply lookup_insert_is_Some'. right.
  by eapply Hatt.
Qed.

Lemma register_user_tables pwd_context email password utcnow db :
  let db' := (register_user pwd_context email password utcnow db).2 in
  wishlist_collections db' = wishlist_collections db
  ∧ wishlist_items db' = wishlist_items db
  ∧ price_history db' = price_history db.
Proof.
  destruct (register_user _ _ _ _ _) as [[r|e] db'] eqn:Hrun; simpl.
  - by apply register_user_Ok in Hrun as (_ & _ & _ & ->).
  - by apply register_user_Raise_unchanged in Hrun as ->.
Qed.

Lemma reachable_invariants pwd_context db :
  reachable pwd_context db →
  at_most_one_default db ∧ price_history_attached db ∧ collections_attached db.
Proof.
  induction 1 as [|db email password utcnow _ (Hdef & Hph & Hcoll)
                  |db endpoint current_user utcnow _ (Hdef & Hph & Hcoll) Huser].
  - split_and!; intros ?; intros; simplify_map_eq.
  - destruct (register_user_tables pwd_context email password utcnow db)
      as (Hc & Hi & Hp).
    split_and!.
    + unfold at_most_one_default. by rewrite Hc.
    + unfold price_history_attached. by rewrite Hi, Hp.
    + by apply register_user_collections_attached.
  - split_and!.
    + by apply serve_at_most_one_default.
    + by apply serve_price_history_attached.
    + by apply serve_collections_attached.
Qed.

(** The sample databases are reachable. *)
Lemma sample_two_collections_reachable :
  reachable Sample.pwd_context Sample.two_collections.
Proof.
  replace Sample.two_collections
    with (serve (POST_collections (Sample.new_collection "Music")) Sample.alice
                Sample.utcnow Sample.one_collection_each).2
    by (vm_compute; reflexivity).
  apply reachable_serve; [|vm_compute; reflexivity].
  replace Sample.one_collection_each
    with (serve (POST_collections (Sample.new_collection "Gifts")) Sample.bob
                Sample.utcnow
                (serve (POST_collections (Sample.new_collection "Books"))
                       Sample.alice Sample.utcnow Sample.registered).2).2
    by (vm_compute; reflexivity).
  apply reachable_serve; [|vm_compute; reflexivity].
  apply reachable_serve; [|vm_compute; reflexivity].
  apply reachable_register, reachable_register, reachable_empty.
Qed.

Lemma sample_with_items_reachable :
  reachable Sample.pwd_context Sample.with_items.
Proof.
  replace Sample.with_items
    with (serve (POST_wishlist (Sample.new_item "Z" 500 3)) Sample.alice
                Sample.utcnow
            (serve (POST_wishlist (Sample.new_item "Y" 2500 2)) Sample.bob
                   Sample.utcnow
               (serve (POST_wishlist (Sample.new_item "X" 1000 1)) Sample.alice
                      Sample.utcnow Sample.two_collections).2).2).2
    by (vm_compute; reflexivity).
  do 3 (apply reachable_serve; [|vm_compute; reflexivity]).
  apply sample_two_collections_reachable.
Qed.

(** ** Collections per user *)

Lemma login_user_db SECRET_KEY ACCESS_TOKEN_EXPIRE_MINUTES pwd_context
    email password utcnow db :
  (login_user SECRET_KEY ACCESS_TOKEN_EXPIRE_MINUTES pwd_context
              email password utcnow db).2 = db.
Proof. unfold login_user. by repeat case_match. Qed.

(** The claim as stated fails at registration: the first user of an
    empty database is registered and owns no collection. *)
Lemma registered_user_owns_no_collection :
  ∃ user db',
    register_user Sample.pwd_context "a@x.com" "password123" Sample.utcnow
                  empty_db = (Ok user, db')
    ∧ collection_count user.1 db' = 0%nat.
Proof. eexists _, _. split; [vm_compute; reflexivity|]. vm_compute. reflexivity. Qed.

(** C4, amended.  Registration creates no collection: a user who has
    just registered owns none.  From the moment a user owns at least
    one collection, every later registration, login or authenticated
    request of any user leaves that user with at least one.  A delete
    of the only collection a user owns raises ConflictError and leaves
    the database unchanged. *)
Theorem collections_per_user SECRET_KEY ACCESS_TOKEN_EXPIRE_MINUTES pwd_context :
  (∀ db email password utcnow user db',
     reachable pwd_context db →
     register_user pwd_context email password utcnow db = (Ok user, db') →
     collection_count user.1 db' = 0%nat)
  ∧ (∀ db user_id,
       (1 ≤ collection_count user_id db)%nat →
       (∀ endpoint current_user utcnow,
          (1 ≤ collection_count user_id
                 (serve endpoint current_user utcnow db).2)%nat)
       ∧ (∀ email password utcnow,
            (1 ≤ collection_count user_id
                   (register_user pwd_context email password utcnow db).2)%nat)
       ∧ (∀ email password utcnow,
            (1 ≤ collection_count user_id
                   (login_user SECRET_KEY ACCESS_TOKEN_EXPIRE_MINUTES
                               pwd_context email password utcnow db).2)%nat))
  ∧ (∀ db collection_id current_user collection,
       select_collection collection_id current_user.1 db = Some collection →
       collection_count current_user.1 db = 1%nat →
       delete_collection collection_id current_user db =
         (Raise (ConflictError "Cannot delete the last remaining collection"),
          db)).
Proof.
  split_and!.
  - intros db email password utcnow user db' Hreach Hrun.
    apply reachable_invariants in Hreach as (_ & _ & Hatt).
    apply register_user_Ok in Hrun as (Hid & _ & _ & ->).
    destruct (collection_count user.1 _) eqn:Hcount; [done|exfalso].
    assert (1 ≤ collection_count user.1
                  (set_users (<[user.1:=user.2]> (users db)) db))%nat
      as (k & c & Hc & Hu)%collection_count_ge_1 by lia.
    simpl in Hc. destruct (Hatt k c Hc) as [u Hlookup].
    rewrite Hu, Hid, next_id_fresh in Hlookup. done.
  - intros db user_id Hcount. split_and!.
    + intros. by apply serve_keeps_a_collection.
    + intros. unfold collection_count, collections_of in *.
      by rewrite register_user_collections.
    + intros. by rewrite login_user_db.
  - intros db collection_id current_user collection Hsel Hcount.
    unfold delete_collection. rewrite Hsel.
    fold (collection_count current_user.1 db). rewrite Hcount.
    by rewrite decide_True.
Qed.

Lemma collections_per_user_witness :
  collection_count 2 Sample.two_collections = 1%nat
  ∧ delete_collection 2 Sample.bob Sample.two_collections =
      (Raise (ConflictError "Cannot delete the last remaining collection"),
       Sample.two_collections)
  ∧ (1 ≤ collection_count 2
           (serve (DELETE_collection 3) Sample.alice Sample.utcnow
                  Sample.two_collections).2)%nat.
Proof.
  destruct (collections_per_user Sample.SECRET_KEY
              Sample.ACCESS_TOKEN_EXPIRE_MINUTES Sample.pwd_context)
    as (_ & Hkeeps & Hlast).
  split; [vm_compute; reflexivity|]. split.
  - apply (Hlast Sample.two_collections 2 Sample.bob
             (WishlistCollection.mk 2 "Gifts" None None false
                1700000001 1700000002)).
    + vm_compute. reflexivity.
    + vm_compute. reflexivity.
  - apply Hkeeps. vm_compute. lia.
Defined.

(** ** The default collection *)

Lemma lookup_defaults_of user_id db k c :
  defaults_of user_id db !! k = Some c ↔
  wishlist_collections db !! k = Some c
  ∧ WishlistCollection.user_id c = user_id
  ∧ WishlistCollection.is_default c = true.
Proof.
  unfold defaults_of. rewrite map_lookup_filter_Some, lookup_collections_of.
  naive_solver.
Qed.




(** ** Creating an item *)

Lemma price_history_of_fresh_item db item_id :
  price_history_attached db →
  wishlist_items db !! item_id = None →
  price_history_of item_id db = ∅.
Proof.
  intros Hatt Hfresh. unfold price_history_of.
  apply map_empty. intros k. apply map_lookup_filter_None. right.
  intros entry Hentry Hitem. simpl in Hitem.
  destruct (Hatt k entry Hentry) as [item Hlookup]. congruence.
Qed.

(** C6. A successful item creation stores the item with current_price
    equal to the supplied initial_price, and leaves exactly one
    price-history row for the item: its price is the initial price and,
    the clock not running backwards between the two inserts, its
    checked_at is at or after the item's created_at. *)
Theorem create_wishlist_item_seeds_price_history
    pwd_context db item_data current_user utcnow item db' :
  reachable pwd_context db →
  (utcnow 0%nat ≤ utcnow 2%nat)%Z →
  create_wishlist_item item_data current_user utcnow db = (Ok item, db') →
  wishlist_items db' !! item.1 = Some item.2
  ∧ WishlistItem.initial_price item.2 = item_initial_price item_data
  ∧ WishlistItem.current_price item.2 = item_initial_price item_data
  ∧ ∃ k entry,
      price_history_of item.1 db' = {[k := entry]}
      ∧ PriceHistory.price entry = item_initial_price item_data
      ∧ (WishlistItem.created_at item.2 ≤ PriceHistory.checked_at entry)%Z.
Proof.
  intros Hreach Hclock Hrun.
  apply reachable_invariants in Hreach as (_ & Hatt & _).
  apply create_wishlist_item_Ok in Hrun
    as (_ & Hid & _ & _ & Hinitial & Hcurrent & Hcreated & ->).
  split_and!; try done.
  - simpl. apply lookup_insert_eq.
  - exists (next_id (price_history db)),
           (PriceHistory.mk item.1 (item_initial_price item_data)
                            (utcnow 2%nat)).
    split_and!; [|reflexivity|simpl; by rewrite Hcreated].
    unfold price_history_of. simpl.
    rewrite map_filter_insert_True by done.
    fold (price_history_of item.1 db).
    rewrite price_history_of_fresh_item; [done..|].
    rewrite Hid. apply next_id_fresh.
Qed.

Lemma create_wishlist_item_seeds_price_history_witness :
  ∃ item db' k entry,
    create_wishlist_item (Sample.new_item "W" 1999 1) Sample.alice
                         Sample.utcnow Sample.with_items = (Ok item, db')
    ∧ WishlistItem.current_price item.2 = 1999
    ∧ price_history_of item.1 db' = {[k := entry]}
    ∧ PriceHistory.price entry = 1999.
Proof.
  destruct (create_wishlist_item (Sample.new_item "W" 1999 1) Sample.alice
              Sample.utcnow Sample.with_items) as [[item|e] db'] eqn:Hrun;
    [|vm_compute in Hrun; discriminate Hrun].
  destruct (create_wishlist_item_seeds_price_history Sample.pwd_context
              Sample.with_items (Sample.new_item "W" 1999 1) Sample.alice
              Sample.utcnow item db')
    as (_ & _ & Hcurrent & k & entry & Hone & Hprice & _).
  - apply sample_with_items_reachable.
  - vm_compute. discriminate.
  - exact Hrun.
  - exists item, db', k, entry. split; [reflexivity|].
    split; [exact Hcurrent|]. split; [exact Hone|exact Hprice].
Defined.

(** ** Requests on another user's rows *)

(** Both routes of [price_history.py] raise [ResourceNotFoundError]
    inside their [try]; it is not an [HTTPException], so the
    [except Exception] clause replaces it by a 500. *)
Lemma price_history_routes_mask_not_found
    item_id price current_user utcnow db :
  select_item_of item_id current_user.1 db = None →
  get_price_history item_id current_user db =
    (Raise (HTTPException HTTP_500_INTERNAL_SERVER_ERROR
                          "Failed to retrieve price history"), db)
  ∧ create_price_history_entry item_id price current_user utcnow db =
      (Raise (HTTPException HTTP_500_INTERNAL_SERVER_ERROR
                            "Failed to create price history entry"), db).
Proof.
  intros Hsel. unfold get_price_history, create_price_history_entry.
  by rewrite Hsel.
Qed.

(** What a request of user A on a collection or an item of another
    user B gets: 404 on every collection route, 403 on the item routes
    of [wishlist.py], 500 on the POST route of [price_history.py]; in
    each case nothing is returned and nothing is written. *)
Lemma cross_owner_requests current_user utcnow db :
  (∀ collection_id collection collection_data,
     wishlist_collections db !! collection_id = Some collection →
     WishlistCollection.user_id collection ≠ current_user.1 →
     Forall (λ endpoint,
               serve endpoint current_user utcnow db =
                 (Raise (ResourceNotFoundError "Collection not found"), db))
            [GET_collection collection_id;
             PUT_collection collection_id collection_data;
             DELETE_collection collection_id;
             POST_collection_set_default collection_id])
  ∧ (∀ item_id item item_data price,
       wishlist_items db !! item_id = Some item →
       WishlistItem.user_id item ≠ current_user.1 →
       Forall (λ endpoint,
                 ∃ message,
                   serve endpoint current_user utcnow db =
                     (Raise (AuthorizationError message), db))
              [GET_wishlist_item item_id;
               PUT_wishlist_item item_id item_data;
               DELETE_wishlist_item item_id;
               GET_price_history item_id]
       ∧ serve (POST_price_history item_id price) current_user utcnow db =
           (Raise (HTTPException HTTP_500_INTERNAL_SERVER_ERROR
                                 "Failed to create price history entry"), db)).
Proof.
  split.
  - intros collection_id collection collection_data Hc Hu.
    assert (select_collection collection_id current_user.1 db = None) as Hsel.
    { unfold select_collection. rewrite Hc. by rewrite decide_False. }
    repeat constructor; cbn [serve];
      unfold get_collection, update_collection, delete_collection,
        set_default_collection; by rewrite Hsel.
  - intros item_id item item_data price Hi Hu. split.
    + repeat constructor; cbn [serve];
        unfold get_wishlist_item, update_wishlist_item, delete_wishlist_item,
          get_item_price_history, select_item;
        rewrite Hi, decide_True by done; simpl; eauto.
    + cbn [serve].
      destruct (price_history_routes_mask_not_found item_id price current_user
                  utcnow db) as [_ ->]; [|done].
      unfold select_item_of. rewrite Hi. by rewrite decide_False.
Qed.

(** C3 (failing input).  Bob asks for, and posts to, the price history
    of item 1, which is Alice's, and of item 99, which does not exist:
    both routes of [price_history.py] raise a 500 [HTTPException], not
    [ResourceNotFoundError]; the POST inserts nothing. *)
Theorem price_history_routes_answer_500 :
  get_price_history 1 Sample.bob Sample.with_items =
    (Raise (HTTPException 500 "Failed to retrieve price history"),
     Sample.with_items)
  ∧ get_price_history 99 Sample.bob Sample.with_items =
      (Raise (HTTPException 500 "Failed to retrieve price history"),
       Sample.with_items)
  ∧ create_price_history_entry 1 900 Sample.bob Sample.utcnow Sample.with_items =
      (Raise (HTTPException 500 "Failed to create price history entry"),
       Sample.with_items)
  ∧ create_price_history_entry 99 900 Sample.bob Sample.utcnow
                               Sample.with_items =
      (Raise (HTTPException 500 "Failed to create price history entry"),
       Sample.with_items)
  ∧ response_status (HTTPException 500 "Failed to create price history entry")
    ≠ HTTP_404_NOT_FOUND.
Proof.
  destruct (price_history_routes_mask_not_found 1 900 Sample.bob Sample.utcnow
              Sample.with_items) as [Hget1 Hpost1]; [vm_compute; reflexivity|].
  destruct (price_history_routes_mask_not_found 99 900 Sample.bob Sample.utcnow
              Sample.with_items) as [Hget99 Hpost99]; [vm_compute; reflexivity|].
  split_and!; try done.
Qed.

(** C1 (failing input).  Bob posts a price for item 1, which is
    Alice's: the request is answered 500, neither 404 nor 403.  Nothing
    is written and nothing of Alice's is returned. *)
Theorem cross_owner_post_price_history_answers_500 :
  wishlist_items Sample.with_items !! 1
    = Some (WishlistItem.mk 1 1 "X" None 1000 1000 "USD" 1700000000 1700000001)
  ∧ serve (POST_price_history 1 900) Sample.bob Sample.utcnow Sample.with_items
    = (Raise (HTTPException 500 "Failed to create price history entry"),
       Sample.with_items)
  ∧ ¬ not_found_or_forbidden
        (serve (POST_price_history 1 900) Sample.bob Sample.utcnow
               Sample.with_items).1.
Proof.
  assert (wishlist_items Sample.with_items !! 1
          = Some (WishlistItem.mk 1 1 "X" None 1000 1000 "USD"
                                  1700000000 1700000001)) as Hitem
    by (vm_compute; reflexivity).
  destruct (cross_owner_requests Sample.bob Sample.utcnow Sample.with_items)
    as [_ Hitems].
  destruct (Hitems 1 _ (Build_WishlistItemUpdate Omitted Omitted Omitted Omitted)
              900 Hitem) as [_ Hpost]; [vm_compute; discriminate|].
  split; [done|]. split; [done|].
  rewrite Hpost. simpl. vm_compute. intros [|]; discriminate.
Qed.

(** ** Session tokens *)

Lemma jwt_decode_encode now claims key :
  jwt_decode now (jwt_encode claims key ALGORITHM) key [ALGORITHM]
  = (_ ← validate_claims now claims; Ok claims).
Proof.
  unfold jwt_decode, jwt_encode.
  rewrite decide_True by set_solver. by rewrite decide_True.
Qed.

(** The claims [create_access_token] signs for a subject, and what the
    decoder's checks make of them: only the expiry can fail. *)
Lemma validate_issued_claims now subject expire issued :
  validate_claims now
    (<["iat" := CInt issued]>
       (<["exp" := CInt expire]> {["sub" := CStr subject]}))
  = if decide (expire < now) then Raise ExpiredSignatureError else Ok ().
Proof.
  unfold validate_claims, validate_iat, validate_nbf, validate_exp,
    validate_aud, validate_str, validate_at_hash.
  simplify_map_eq. by case_decide.
Qed.

Lemma verify_issued_token SECRET_KEY minutes subject expires_delta utcnow now :
  let ttl := if truthy_int expires_delta then default 0 expires_delta
             else 60 * minutes in
  verify_token SECRET_KEY now
    (create_access_token SECRET_KEY minutes {["sub" := CStr subject]}
                         expires_delta utcnow)
  = if decide (utcnow 0%nat + ttl < now) then None
    else Some (<["iat" := CInt (utcnow 1%nat)]>
                 (<["exp" := CInt (utcnow 0%nat + ttl)]>
                    {["sub" := CStr subject]})).
Proof.
  intros ttl. unfold verify_token, create_access_token.
  rewrite jwt_decode_encode.
  assert ((if truthy_int expires_delta
           then utcnow 0%nat + default 0 expires_delta
           else utcnow 0%nat + 60 * minutes) = utcnow 0%nat + ttl) as ->.
  { unfold ttl. by destruct (truthy_int expires_delta). }
  rewrite validate_issued_claims. by case_decide.
Qed.

Lemma is_token_expired_undecodable SECRET_KEY utcoffset utcnow token :
  verify_token SECRET_KEY (utcnow 0%nat) token = None →
  is_token_expired SECRET_KEY utcoffset utcnow token = true.
Proof. unfold is_token_expired. by intros ->. Qed.

(** C7. A token issued for a subject with a time-to-live that is not
    negative verifies at the moment it is issued, and at every moment
    up to its expiry, and decode_token returns exactly the subject.
    Once the time-to-live has elapsed, decode_token returns none and
    is_token_expired returns true.  Any token that fails to verify is
    reported expired.  (Clock readings are whole seconds, the
    resolution of the exp claim.) *)
Theorem token_round_trip
    SECRET_KEY ACCESS_TOKEN_EXPIRE_MINUTES subject expires_delta utcnow :
  let ttl := if truthy_int expires_delta then default 0 expires_delta
             else 60 * ACCESS_TOKEN_EXPIRE_MINUTES in
  let token :=
    create_access_token SECRET_KEY ACCESS_TOKEN_EXPIRE_MINUTES
                        {["sub" := CStr subject]} expires_delta utcnow in
  (0 ≤ ttl)%Z →
  (is_Some (verify_token SECRET_KEY (utcnow 0%nat) token)
   ∧ decode_token SECRET_KEY (utcnow 0%nat) token = Some subject)
  ∧ (∀ now, (now ≤ utcnow 0%nat + ttl)%Z →
            is_Some (verify_token SECRET_KEY now token)
            ∧ decode_token SECRET_KEY now token = Some subject)
  ∧ (∀ now, (utcnow 0%nat + ttl < now)%Z →
            decode_token SECRET_KEY now token = None
            ∧ ∀ utcoffset clock,
                clock 0%nat = now →
                is_token_expired SECRET_KEY utcoffset clock token = true)
  ∧ (∀ other utcoffset clock,
       verify_token SECRET_KEY (clock 0%nat) other = None →
       is_token_expired SECRET_KEY utcoffset clock other = true).
Proof.
  intros ttl token Httl.
  assert (Hvalid : ∀ now, (now ≤ utcnow 0%nat + ttl)%Z →
            is_Some (verify_token SECRET_KEY now token)
            ∧ decode_token SECRET_KEY now token = Some subject).
  { intros now Hnow. unfold decode_token, token.
    rewrite verify_issued_token. fold ttl.
    rewrite decide_False by lia. split; [eauto|]. by simplify_map_eq. }
  split_and!.
  - apply Hvalid. lia.
  - apply Hvalid. lia.
  - apply Hvalid.
  - intros now Hnow.
    assert (verify_token SECRET_KEY now token = None) as Hnone.
    { unfold token. rewrite verify_issued_token. fold ttl.
      by rewrite decide_True. }
    split.
    + unfold decode_token. by rewrite Hnone.
    + intros utcoffset clock Hclock.
      apply is_token_expired_undecodable. by rewrite Hclock.
  - intros other utcoffset clock. apply is_token_expired_undecodable.
Qed.

Lemma token_round_trip_witness :
  decode_token Sample.SECRET_KEY 1700000000
    (create_access_token Sample.SECRET_KEY Sample.ACCESS_TOKEN_EXPIRE_MINUTES
                         {["sub" := CStr "a@x.com"]} None Sample.utcnow)
  = Some "a@x.com"
  ∧ decode_token Sample.SECRET_KEY 1700001801
      (create_access_token Sample.SECRET_KEY Sample.ACCESS_TOKEN_EXPIRE_MINUTES
                           {["sub" := CStr "a@x.com"]} None Sample.utcnow)
    = None.
Proof.
  destruct (token_round_trip Sample.SECRET_KEY
              Sample.ACCESS_TOKEN_EXPIRE_MINUTES "a@x.com" None Sample.utcnow)
    as ([_ Hnow] & _ & Hlater & _).
  { vm_compute. discriminate. }
  split; [exact Hnow|].
  apply Hlater. vm_compute. reflexivity.
Defined.

(** ** The required guard *)

Lemma select_user_by_email_unique email db :
  unique_emails db →
  (select_user_by_email email db = []
   ∧ ∀ k u, users db !! k = Some u → User.email u ≠ email)
  ∨ ∃ user, select_user_by_email email db = [user]
            ∧ users db !! user.1 = Some user.2
            ∧ User.email user.2 = email.
Proof.
  intros Huniq. unfold select_user_by_email, select_where.
  set (found := filter (λ kv : Z * User.t, User.email kv.2 = email) (users db)).
  assert (Hin : ∀ kv, kv ∈ map_to_list found →
                      users db !! kv.1 = Some kv.2 ∧ User.email kv.2 = email).
  { intros [k u] Hkv%elem_of_map_to_list. by apply map_lookup_filter_Some in Hkv. }
  pose proof (NoDup_map_to_list found) as Hnodup.
  destruct (map_to_list found) as [|x [|y rest]] eqn:Hlist.
  - left. split; [done|]. intros k u Hk Hu.
    apply map_to_list_empty_iff in Hlist.
    assert (found !! k = Some u) as Hf by by apply map_lookup_filter_Some.
    rewrite Hlist in Hf. done.
  - right. exists x. split; [done|]. apply Hin. set_solver.
  - exfalso.
    destruct (Hin x) as [Hx Hex]; [set_solver|].
    destruct (Hin y) as [Hy Hey]; [set_solver|].
    assert (x.1 = y.1) as Hkey by (eapply Huniq; [done..|congruence]).
    assert (x = y) as ->.
    { destruct x, y; simpl in *; congruence. }
    apply NoDup_cons in Hnodup as [Hnotin _]. set_solver.
Qed.

Lemma decode_token_Some SECRET_KEY now credentials subject :
  decode_token SECRET_KEY now credentials = Some subject ↔
  ∃ claims,
    credentials = jwt_encode claims SECRET_KEY ALGORITHM
    ∧ validate_claims now claims = Ok ()
    ∧ claims !! "sub" = Some (CStr subject).
Proof.
  unfold decode_token, verify_token. split.
  - destruct credentials as [raw|alg claims signature]; simpl; [done|].
    destruct (decide (alg ∈ [ALGORITHM])) as [Halg|]; [|done].
    destruct (decide (signature = _)) as [->|]; [|done].
    apply list_elem_of_singleton in Halg as ->.
    destruct (validate_claims now claims) as [[]|e] eqn:Hvalid; simpl; [|done].
    intros Hsub. exists claims. split_and!; [done..|].
    repeat case_match; naive_solver.
  - intros (claims & -> & Hvalid & Hsub).
    rewrite jwt_decode_encode, Hvalid. simpl. by rewrite Hsub.
Qed.

Lemma register_user_unique_emails pwd_context email password utcnow db :
  unique_emails db →
  unique_emails (register_user pwd_context email password utcnow db).2.
Proof.
  intros Huniq.
  destruct (register_user _ _ _ _ _) as [[r|e] db'] eqn:Hrun; simpl;
    [|by apply register_user_Raise_unchanged in Hrun as ->].
  apply register_user_Ok in Hrun as (Hid & Hemail & Hnone & ->).
  assert (Hnew : ∀ k u, users db !! k = Some u → User.email u ≠ email).
  { intros k u Hk Hu.
    assert (filter (λ kv : Z * User.t, User.email kv.2 = email) (users db)
              !! k = Some u) as Hf by by apply map_lookup_filter_Some.
    rewrite Hnone in Hf. done. }
  intros i j u v. simpl. rewrite !lookup_insert.
  repeat case_decide; intros; simplify_eq; try done.
  - exfalso. eapply Hnew; [done|]. congruence.
  - exfalso. eapply Hnew; [done|]. congruence.
  - by eapply Huniq.
Qed.

Lemma reachable_unique_emails pwd_context db :
  reachable pwd_context db → unique_emails db.
Proof.
  induction 1 as [|db email password utcnow _ IH
                  |db endpoint current_user utcnow _ IH Huser].
  - intros i j u v Hi. simplify_map_eq.
  - by apply register_user_unique_emails.
  - unfold unique_emails. by rewrite serve_users.
Qed.

(** The claim as stated fails for a request without an Authorization
    header: the bearer scheme ends it with an HTTPException, which is
    not an AuthenticationError, before [get_current_user] is entered. *)
Lemma missing_header_raises_HTTPException :
  current_user_required Sample.SECRET_KEY 1700000000 None Sample.registered
  = Raise (HTTPException HTTP_403_FORBIDDEN "Not authenticated")
  ∧ ∀ message,
      current_user_required Sample.SECRET_KEY 1700000000 None Sample.registered
      ≠ Raise (AuthenticationError message).
Proof. split; [reflexivity|]. intros message. discriminate. Qed.

(** C8, amended.  Entered with a bearer credential,
    [get_current_user] raises AuthenticationError if and only if the
    token does not decode to a subject (it is structurally invalid, is
    not signed with the server key under HS256, or carries claims that
    do not validate at the current time, an elapsed exp among them, or
    has no subject) or no user has the subject as email; it raises
    nothing else, and otherwise returns the user whose email equals the
    token's subject.  A request with no Authorization header does not
    reach it: the HTTPBearer dependency raises an HTTPException. *)
Theorem get_current_user_guard SECRET_KEY now credentials db :
  unique_emails db →
  (get_current_user SECRET_KEY now credentials db
     = Raise (AuthenticationError "Could not validate credentials")
   ↔ decode_token SECRET_KEY now credentials = None
     ∨ ∃ subject,
         decode_token SECRET_KEY now credentials = Some subject
         ∧ ∀ k u, users db !! k = Some u → User.email u ≠ subject)
  ∧ (∀ e, get_current_user SECRET_KEY now credentials db = Raise e →
          e = AuthenticationError "Could not validate credentials")
  ∧ (∀ user,
       get_current_user SECRET_KEY now credentials db = Ok user ↔
       users db !! user.1 = Some user.2
       ∧ decode_token SECRET_KEY now credentials = Some (User.email user.2))
  ∧ (∀ subject,
       decode_token SECRET_KEY now credentials = Some subject ↔
       ∃ claims,
         credentials = jwt_encode claims SECRET_KEY ALGORITHM
         ∧ validate_claims now claims = Ok ()
         ∧ claims !! "sub" = Some (CStr subject))
  ∧ current_user_required SECRET_KEY now (Some ("Bearer", Some credentials)) db
    = get_current_user SECRET_KEY now credentials db
  ∧ current_user_required SECRET_KEY now None db
    = Raise (HTTPException HTTP_403_FORBIDDEN "Not authenticated").
Proof.
  intros Huniq.
  assert (Hdec : ∀ subject,
            decode_token SECRET_KEY now credentials = Some subject ↔
            ∃ claims,
              credentials = jwt_encode claims SECRET_KEY ALGORITHM
              ∧ validate_claims now claims = Ok ()
              ∧ claims !! "sub" = Some (CStr subject))
    by (intros; apply decode_token_Some).
  cut ((get_current_user SECRET_KEY now credentials db
          = Raise (AuthenticationError "Could not validate credentials")
        ↔ decode_token SECRET_KEY now credentials = None
          ∨ ∃ subject,
              decode_token SECRET_KEY now credentials = Some subject
              ∧ ∀ k u, users db !! k = Some u → User.email u ≠ subject)
       ∧ (∀ e, get_current_user SECRET_KEY now credentials db = Raise e →
               e = AuthenticationError "Could not validate credentials")
       ∧ (∀ user,
            get_current_user SECRET_KEY now credentials db = Ok user ↔
            users db !! user.1 = Some user.2
            ∧ decode_token SECRET_KEY now credentials
              = Some (User.email user.2))).
  { intros (? & ? & ?). split_and!; done. }
  clear Hdec. unfold get_current_user.
  destruct (decode_token SECRET_KEY now credentials) as [subject|] eqn:Hdecode.
  2: { split_and!.
       - naive_solver.
       - by intros e [= <-].
       - intros user. naive_solver. }
  destruct (select_user_by_email_unique subject db Huniq)
    as [[-> Hnone]|(user & -> & Huser & Hemail)]; simpl.
  - split_and!.
    + split; [|done]. intros _. right. eauto.
    + by intros e [= <-].
    + intros user. split; [done|]. intros [Hu [= ->]].
      exfalso. by eapply Hnone.
  - split_and!.
    + split; [done|]. intros [|(s & [= <-] & Hnone)]; [done|].
      exfalso. by eapply Hnone.
    + done.
    + intros user'. split.
      * intros [= <-]. split; [done|]. by rewrite Hemail.
      * intros [Hu' [= Hs]]. f_equal.
        assert (user.1 = user'.1) as Hkey
          by (eapply Huniq; [done..|congruence]).
        destruct user, user'; simpl in *; congruence.
Qed.

Lemma get_current_user_guard_witness :
  get_current_user Sample.SECRET_KEY 1700000000
    (create_access_token Sample.SECRET_KEY Sample.ACCESS_TOKEN_EXPIRE_MINUTES
                         {["sub" := CStr "a@x.com"]} None Sample.utcnow)
    Sample.registered
  = Ok Sample.alice.
Proof.
  destruct (get_current_user_guard Sample.SECRET_KEY 1700000000
              (create_access_token Sample.SECRET_KEY
                 Sample.ACCESS_TOKEN_EXPIRE_MINUTES
                 {["sub" := CStr "a@x.com"]} None Sample.utcnow)
              Sample.registered) as (_ & _ & Hok & _).
  { apply (reachable_unique_emails Sample.pwd_context).
    apply reachable_register, reachable_register, reachable_empty. }
  apply Hok. split; vm_compute; reflexivity.
Defined.

(** * Further properties of the handlers *)

(** ** Password rules *)


(** ** The optional guard *)

(** [get_current_user_optional] resolves a user exactly when the
    required guard does, and to the same user; where the required
    guard raises (no header, another scheme, a token that does not
    decode, an unknown subject) it returns no user. *)
Theorem optional_guard_agrees_with_required
    SECRET_KEY now authorization db user :
  get_current_user_optional SECRET_KEY now authorization db = Some user
  ↔ current_user_required SECRET_KEY now authorization db = Ok user.
Proof.
  unfold get_current_user_optional, current_user_required, get_current_user,
    HTTPBearer.
  destruct authorization as [[scheme [credentials|]]|]; simpl; [|done..].
  repeat case_decide; simpl; try done.
  destruct (decode_token SECRET_KEY now credentials) as [email|]; [|done].
  destruct (scalar_one_or_none (select_user_by_email email db))
    as [[found|]|e]; naive_solver.
Qed.

(** ** Signatures and the validity window *)

(** [verify_token] returns a payload only for a token signed with the
    server key under HS256, and then returns exactly the signed claims:
    a token signed with another key, a token whose claims were changed
    after signing and a token announcing another algorithm are all
    refused, at every time. *)
Theorem verify_token_accepts_only_own_signature SECRET_KEY now :
  (∀ token payload,
     verify_token SECRET_KEY now token = Some payload ↔
     token = jwt_encode payload SECRET_KEY ALGORITHM
     ∧ validate_claims now payload = Ok ())
  ∧ (∀ key claims,
       key ≠ SECRET_KEY →
       verify_token SECRET_KEY now (jwt_encode claims key ALGORITHM) = None)
  ∧ (∀ claims forged,
       forged ≠ claims →
       verify_token SECRET_KEY now
         (Compact ALGORITHM forged
                  {| signed_alg := ALGORITHM; signed_key := SECRET_KEY;
                     signed_claims := claims |}) = None)
  ∧ (∀ alg claims signature,
       alg ≠ ALGORITHM →
       verify_token SECRET_KEY now (Compact alg claims signature) = None)
  ∧ (∀ raw, verify_token SECRET_KEY now (Malformed raw) = None).
Proof.
  split_and!.
  - intros token payload. unfold verify_token. split.
    + destruct token as [raw|alg claims signature]; simpl; [done|].
      destruct (decide (alg ∈ [ALGORITHM])) as [Halg|]; [|done].
      destruct (decide (signature = _)) as [->|]; [|done].
      apply list_elem_of_singleton in Halg as ->.
      destruct (validate_claims now claims) as [[]|e] eqn:Hvalid; simpl; [|done].
      intros [= <-]. done.
    + intros [-> Hvalid]. by rewrite jwt_decode_encode, Hvalid.
  - intros key claims Hkey. unfold verify_token, jwt_encode, jwt_decode.
    rewrite decide_True by set_solver.
    rewrite decide_False; [done|]. intros [= ?]. done.
  - intros claims forged Hforged. unfold verify_token, jwt_decode.
    rewrite decide_True by set_solver.
    rewrite decide_False; [done|]. intros [= ?]. done.
  - intros alg claims signature Halg. unfold verify_token, jwt_decode.
    rewrite decide_False; [done|]. set_solver.
  - done.
Qed.

Lemma validate_claims_Ok now claims :
  validate_claims now claims = Ok () ↔
  validate_iat claims = Ok ()
  ∧ validate_nbf now claims = Ok ()
  ∧ validate_exp now claims = Ok ()
  ∧ validate_aud claims = Ok ()
  ∧ validate_str "sub" claims = Ok ()
  ∧ validate_str "jti" claims = Ok ()
  ∧ validate_at_hash claims = Ok ().
Proof.
  unfold validate_claims.
  destruct (validate_iat claims) as [[]|]; simpl; [|naive_solver].
  destruct (validate_nbf now claims) as [[]|]; simpl; [|naive_solver].
  destruct (validate_exp now claims) as [[]|]; simpl; [|naive_solver].
  destruct (validate_aud claims) as [[]|]; simpl; [|naive_solver].
  destruct (validate_str "sub" claims) as [[]|]; simpl; [|naive_solver].
  destruct (validate_str "jti" claims) as [[]|]; simpl; [|naive_solver].
  naive_solver.
Qed.

(** The times at which a token verifies form an interval: a token that
    verifies at two times verifies, with the same payload, at every
    time between them. *)
Theorem verify_token_window SECRET_KEY token earlier now later payload payload' :
  (earlier ≤ now ≤ later)%Z →
  verify_token SECRET_KEY earlier token = Some payload →
  verify_token SECRET_KEY later token = Some payload' →
  verify_token SECRET_KEY now token = Some payload.
Proof.
  intros Hbetween.
  destruct (verify_token_accepts_only_own_signature SECRET_KEY earlier)
    as [Hearlier _].
  destruct (verify_token_accepts_only_own_signature SECRET_KEY later)
    as [Hlater _].
  destruct (verify_token_accepts_only_own_signature SECRET_KEY now)
    as [Hnow _].
  intros [-> Hv1]%Hearlier [Heq Hv2]%Hlater. apply Hnow. split; [done|].
  assert (payload' = payload) as -> by (by injection Heq).
  apply validate_claims_Ok in Hv1 as (? & Hnbf & _ & ? & ? & ? & ?).
  apply validate_claims_Ok in Hv2 as (_ & _ & Hexp & _).
  apply validate_claims_Ok. split_and!; try done.
  - unfold validate_nbf in *.
    destruct (payload !! "nbf") as [[|nbf]|]; try done.
    case_decide; [done|]. by rewrite decide_False by lia.
  - unfold validate_exp in *.
    destruct (payload !! "exp") as [[|exp]|]; try done.
    case_decide; [done|]. by rewrite decide_False by lia.
Qed.

Lemma verify_token_window_witness :
  verify_token Sample.SECRET_KEY 1700000900
    (create_access_token Sample.SECRET_KEY Sample.ACCESS_TOKEN_EXPIRE_MINUTES
                         {["sub" := CStr "a@x.com"]} None Sample.utcnow)
  = Some (<["iat" := CInt 1700000001]>
            (<["exp" := CInt 1700001800]> {["sub" := CStr "a@x.com"]})).
Proof.
  apply (verify_token_window Sample.SECRET_KEY _ 1700000000 1700000900
           1700001800 _
           (<["iat" := CInt 1700000001]>
              (<["exp" := CInt 1700001800]> {["sub" := CStr "a@x.com"]}))).
  - lia.
  - vm_compute. reflexivity.
  - vm_compute. reflexivity.
Defined.

(** ** Expiry as [is_token_expired] reports it *)

(** A correctly signed token that carries no [exp] claim is reported
    expired by [is_token_expired] at every time, although [verify_token]
    accepts it whenever its other claims validate; if it also carries
    no [nbf], whether it verifies does not depend on the time at all. *)
Theorem token_without_exp SECRET_KEY claims :
  claims !! "exp" = None →
  (∀ utcoffset utcnow,
     is_token_expired SECRET_KEY utcoffset utcnow
                      (jwt_encode claims SECRET_KEY ALGORITHM) = true)
  ∧ (claims !! "nbf" = None →
     ∀ now now',
       verify_token SECRET_KEY now (jwt_encode claims SECRET_KEY ALGORITHM)
       = verify_token SECRET_KEY now' (jwt_encode claims SECRET_KEY ALGORITHM)).
Proof.
  intros Hexp. split.
  - intros utcoffset utcnow. unfold is_token_expired, verify_token.
    rewrite jwt_decode_encode.
    destruct (validate_claims _ claims) as [[]|e]; simpl; [|done].
    by rewrite Hexp.
  - intros Hnbf now now'. unfold verify_token.
    rewrite !jwt_decode_encode.
    unfold validate_claims, validate_nbf, validate_exp.
    by rewrite Hexp, Hnbf.
Qed.

Lemma token_without_exp_witness :
  decode_token Sample.SECRET_KEY 1700000000
    (jwt_encode {["sub" := CStr "a@x.com"]} Sample.SECRET_KEY ALGORITHM)
  = Some "a@x.com"
  ∧ is_token_expired Sample.SECRET_KEY 0 Sample.utcnow
      (jwt_encode {["sub" := CStr "a@x.com"]} Sample.SECRET_KEY ALGORITHM)
    = true.
Proof.
  split; [vm_compute; reflexivity|].
  apply (token_without_exp Sample.SECRET_KEY {["sub" := CStr "a@x.com"]}).
  vm_compute. reflexivity.
Defined.



(** ** Logging in *)

Lemma login_user_Ok SECRET_KEY minutes pwd_context email password utcnow db
    token db' :
  login_user SECRET_KEY minutes pwd_context email password utcnow db
    = (Ok token, db') →
  ∃ user,
    scalar_one_or_none (select_user_by_email email db) = Ok (Some user)
    ∧ verify_password pwd_context password (User.hashed_password user.2)
      = Ok true
    ∧ token = {| access_token :=
                   create_access_token SECRET_KEY minutes
                     {["sub" := CStr (User.email user.2)]} None utcnow;
                 token_type := "bearer";
                 expires_in := minutes * 60 |}
    ∧ db' = db.
Proof.
  unfold login_user, get_token_expiration_time. intros Hrun.
  repeat case_match; simplify_eq/=. eauto.
Qed.

(** A successful login is one whose password the context verified
    against the stored hash of the user with that email; the token it
    returns, presented to [get_current_user] at any time up to its
    expiry, resolves to that very user. *)
Theorem login_then_authenticate
    SECRET_KEY ACCESS_TOKEN_EXPIRE_MINUTES pwd_context email password utcnow
    db token db' now :
  unique_emails db →
  (now ≤ utcnow 0%nat + 60 * ACCESS_TOKEN_EXPIRE_MINUTES)%Z →
  login_user SECRET_KEY ACCESS_TOKEN_EXPIRE_MINUTES pwd_context
             email password utcnow db = (Ok token, db') →
  ∃ user,
    users db !! user.1 = Some user.2
    ∧ User.email user.2 = email
    ∧ verify_password pwd_context password (User.hashed_password user.2)
      = Ok true
    ∧ get_current_user SECRET_KEY now (access_token token) db' = Ok user.
Proof.
  intros Huniq Hnow (user & Hsel & Hverify & -> & ->)%login_user_Ok.
  exists user.
  destruct (select_user_by_email_unique email db Huniq)
    as [[Hnil _]|(user' & Hone & Huser & Hemail)];
    rewrite ?Hnil, ?Hone in Hsel; simplify_eq/=.
  split_and!; try done.
  unfold get_current_user, decode_token.
  rewrite verify_issued_token. simpl.
  rewrite decide_False by lia. simplify_map_eq.
  by rewrite Hone.
Qed.

Lemma login_then_authenticate_witness :
  ∃ token,
    login_user Sample.SECRET_KEY Sample.ACCESS_TOKEN_EXPIRE_MINUTES
               Sample.pwd_context "a@x.com" "password123" Sample.utcnow
               Sample.registered = (Ok token, Sample.registered)
    ∧ get_current_user Sample.SECRET_KEY 1700000060 (access_token token)
                       Sample.registered = Ok Sample.alice.
Proof.
  destruct (login_user Sample.SECRET_KEY Sample.ACCESS_TOKEN_EXPIRE_MINUTES
              Sample.pwd_context "a@x.com" "password123" Sample.utcnow
              Sample.registered) as [[token|e] db'] eqn:Hrun;
    [|vm_compute in Hrun; discriminate Hrun].
  destruct (login_then_authenticate Sample.SECRET_KEY
              Sample.ACCESS_TOKEN_EXPIRE_MINUTES Sample.pwd_context
              "a@x.com" "password123" Sample.utcnow Sample.registered
              token db' 1700000060)
    as (user & Huser & Hemail & _ & Hguard).
  - apply (reachable_unique_emails Sample.pwd_context).
    apply reachable_register, reachable_register, reachable_empty.
  - vm_compute. discriminate.
  - exact Hrun.
  - assert (db' = Sample.registered) as ->.
    { vm_compute in Hrun. by injection Hrun as _ <-. }
    exists token. split; [reflexivity|]. rewrite Hguard. f_equal.
    assert (user.1 = 1) as Hkey.
    { apply (reachable_unique_emails Sample.pwd_context Sample.registered)
        with (u := user.2) (v := Sample.alice.2).
      - apply reachable_register, reachable_register, reachable_empty.
      - exact Huser.
      - vm_compute. reflexivity.
      - rewrite Hemail. reflexivity. }
    destruct user as [k u]. simpl in *. subst k.
    vm_compute in Huser. by injection Huser as <-.
Defined.

(** The lifetime a login advertises is the one its token carries:
    [expires_in] seconds after the moment of issue is the token's
    [exp] claim, its [sub] claim is the email of the user, and the
    token type is bearer. *)
Theorem login_expires_in_matches_exp
    SECRET_KEY ACCESS_TOKEN_EXPIRE_MINUTES pwd_context email password utcnow
    db token db' :
  login_user SECRET_KEY ACCESS_TOKEN_EXPIRE_MINUTES pwd_context
             email password utcnow db = (Ok token, db') →
  ∃ claims,
    access_token token = jwt_encode claims SECRET_KEY ALGORITHM
    ∧ claims !! "exp" = Some (CInt (utcnow 0%nat + expires_in token))
    ∧ (∃ user, scalar_one_or_none (select_user_by_email email db)
               = Ok (Some user)
               ∧ claims !! "sub" = Some (CStr (User.email user.2)))
    ∧ token_type token = "bearer".
Proof.
  intros (user & Hsel & _ & -> & ->)%login_user_Ok. simpl.
  unfold create_access_token. simpl.
  eexists. split; [reflexivity|]. simplify_map_eq.
  split_and!; [f_equal; f_equal; lia| |done].
  exists user. split; [done|]. by simplify_map_eq.
Qed.

Lemma login_expires_in_matches_exp_witness :
  ∃ token claims,
    login_user Sample.SECRET_KEY Sample.ACCESS_TOKEN_EXPIRE_MINUTES
               Sample.pwd_context "a@x.com" "password123" Sample.utcnow
               Sample.registered = (Ok token, Sample.registered)
    ∧ expires_in token = 1800
    ∧ access_token token = jwt_encode claims Sample.SECRET_KEY ALGORITHM
    ∧ claims !! "exp" = Some (CInt 1700001800).
Proof.
  destruct (login_user Sample.SECRET_KEY Sample.ACCESS_TOKEN_EXPIRE_MINUTES
              Sample.pwd_context "a@x.com" "password123" Sample.utcnow
              Sample.registered) as [[token|e] db'] eqn:Hrun;
    [|vm_compute in Hrun; discriminate Hrun].
  destruct (login_expires_in_matches_exp _ _ _ _ _ _ _ _ _ Hrun)
    as (claims & Hencoded & Hexp & _).
  exists token, claims.
  assert (db' = Sample.registered ∧ expires_in token = 1800) as [-> Hin].
  { vm_compute in Hrun. injection Hrun as <- <-. done. }
  split; [reflexivity|]. split; [exact Hin|]. split; [exact Hencoded|].
  rewrite Hexp, Hin. reflexivity.
Defined.

(** A login that fails writes nothing and tells nothing: an unknown
    email and a wrong password raise the same AuthenticationError with
    the same message.  The only other failure is the 500 raised when
    the query or the password check itself raises. *)
Theorem login_failures_are_uniform
    SECRET_KEY ACCESS_TOKEN_EXPIRE_MINUTES pwd_context password utcnow db :
  unique_emails db →
  (∀ email,
     (∀ k u, users db !! k = Some u → User.email u ≠ email) →
     login_user SECRET_KEY ACCESS_TOKEN_EXPIRE_MINUTES pwd_context
                email password utcnow db
     = (Raise (AuthenticationError "Invalid email or password"), db))
  ∧ (∀ k u,
       users db !! k = Some u →
       verify_password pwd_context password (User.hashed_password u)
         = Ok false →
       login_user SECRET_KEY ACCESS_TOKEN_EXPIRE_MINUTES pwd_context
                  (User.email u) password utcnow db
       = (Raise (AuthenticationError "Invalid email or password"), db))
  ∧ (∀ email e db',
       login_user SECRET_KEY ACCESS_TOKEN_EXPIRE_MINUTES pwd_context
                  email password utcnow db = (Raise e, db') →
       db' = db
       ∧ (e = AuthenticationError "Invalid email or password"
          ∨ e = HTTPException HTTP_500_INTERNAL_SERVER_ERROR
                              "Authentication failed")).
Proof.
  intros Huniq. split_and!.
  - intros email Hnone. unfold login_user.
    destruct (select_user_by_email_unique email db Huniq)
      as [[-> _]|(user & _ & Huser & Hemail)]; [done|].
    exfalso. by eapply Hnone.
  - intros k u Hk Hverify. unfold login_user.
    destruct (select_user_by_email_unique (User.email u) db Huniq)
      as [[_ Hnone]|(user & -> & Huser & Hemail)].
    { exfalso. by eapply Hnone. }
    simpl.
    assert (user.1 = k) as Hkey by (eapply Huniq; done).
    assert (user.2 = u) as -> by congruence.
    by rewrite Hverify.
  - intros email e db'. unfold login_user. intros Hrun.
    repeat case_match; simplify_eq/=; auto.
Qed.

Lemma login_failures_are_uniform_witness :
  login_user Sample.SECRET_KEY Sample.ACCESS_TOKEN_EXPIRE_MINUTES
             Sample.pwd_context "nobody@x.com" "password123" Sample.utcnow
             Sample.registered
  = login_user Sample.SECRET_KEY Sample.ACCESS_TOKEN_EXPIRE_MINUTES
               Sample.pwd_context "a@x.com" "wrong-password" Sample.utcnow
               Sample.registered.
Proof.
  destruct (login_failures_are_uniform Sample.SECRET_KEY
              Sample.ACCESS_TOKEN_EXPIRE_MINUTES Sample.pwd_context
              "wrong-password" Sample.utcnow Sample.registered)
    as (_ & Hwrong & _).
  { apply (reachable_unique_emails Sample.pwd_context).
    apply reachable_register, reachable_register, reachable_empty. }
  transitivity
    (Raise (AuthenticationError "Invalid email or password")
       : Result AccessToken, Sample.registered).
  - vm_compute. reflexivity.
  - symmetry. apply (Hwrong 1 Sample.alice.2); vm_compute; reflexivity.
Defined.

(** ** Registering *)






(** No request modifies or removes a user: a row of the users table
    is the same after any authenticated request, any registration and
    any login. *)
Theorem user_rows_are_permanent
    SECRET_KEY ACCESS_TOKEN_EXPIRE_MINUTES pwd_context db k u :
  users db !! k = Some u →
  (∀ endpoint current_user utcnow,
     users (serve endpoint current_user utcnow db).2 !! k = Some u)
  ∧ (∀ email password utcnow,
       users (register_user pwd_context email password utcnow db).2 !! k
       = Some u)
  ∧ (∀ email password utcnow,
       users (login_user SECRET_KEY ACCESS_TOKEN_EXPIRE_MINUTES pwd_context
                         email password utcnow db).2 !! k = Some u).
Proof.
  intros Hk. split_and!.
  - intros. by rewrite serve_users.
  - intros email password utcnow.
    destruct (register_user _ _ _ _ _) as [[r|e] db'] eqn:Hrun; simpl.
    + apply register_user_Ok in Hrun as (Hid & _ & _ & ->). simpl.
      rewrite lookup_insert_ne; [done|].
      intros Heq. rewrite Hid in Heq. rewrite <-Heq, next_id_fresh in Hk. done.
    + by apply register_user_Raise_unchanged in Hrun as ->.
  - intros. by rewrite login_user_db.
Qed.

Lemma user_rows_are_permanent_witness :
  users (serve (DELETE_collection 3) Sample.alice Sample.utcnow
               Sample.two_collections).2 !! 2 = Some Sample.bob.2
  ∧ users (register_user Sample.pwd_context "c@x.com" "s3cretpass"
                         Sample.utcnow Sample.two_collections).2 !! 2
    = Some Sample.bob.2.
Proof.
  destruct (user_rows_are_permanent Sample.SECRET_KEY
              Sample.ACCESS_TOKEN_EXPIRE_MINUTES Sample.pwd_context
              Sample.two_collections 2 Sample.bob.2) as (Hserve & Hreg & _).
  { vm_compute. reflexivity. }
  split; [apply Hserve|apply Hreg].
Defined.

(** ** Collection names *)

Lemma unset_defaults_row user_id except now table k c' :
  unset_defaults user_id except now table !! k = Some c' →
  ∃ c, table !! k = Some c
       ∧ WishlistCollection.user_id c' = WishlistCollection.user_id c
       ∧ WishlistCollection.name c' = WishlistCollection.name c
       ∧ WishlistCollection.description c' = WishlistCollection.description c
       ∧ WishlistCollection.color c' = WishlistCollection.color c
       ∧ WishlistCollection.created_at c' = WishlistCollection.created_at c
       ∧ (c' = c ∨ (WishlistCollection.user_id c = user_id
                    ∧ WishlistCollection.is_default c = true
                    ∧ Some k ≠ except
                    ∧ c' = touch_collection now (with_is_default false c))).
Proof.
  rewrite lookup_unset_defaults.
  destruct (table !! k) as [c|]; [|done]. simpl. intros [= <-].
  exists c. split; [done|]. case_decide; simpl; naive_solver.
Qed.

Lemma if_unset_row (b : bool) user_id except now table k c' :
  (if b then unset_defaults user_id except now table else table) !! k = Some c' →
  ∃ c, table !! k = Some c
       ∧ WishlistCollection.user_id c' = WishlistCollection.user_id c
       ∧ WishlistCollection.name c' = WishlistCollection.name c.
Proof.
  destruct b.
  - intros (c & ? & ? & ? & _)%unset_defaults_row. eauto.
  - eauto.
Qed.

Lemma flush_collection_row now old new :
  flush_collection now old new = new
  ∨ flush_collection now old new = touch_collection now new.
Proof. unfold flush_collection. case_decide; auto. Qed.

Lemma apply_collection_update_row collection_data collection updated :
  apply_collection_update collection_data collection = Ok updated →
  WishlistCollection.user_id updated = WishlistCollection.user_id collection
  ∧ WishlistCollection.created_at updated
    = WishlistCollection.created_at collection
  ∧ WishlistCollection.updated_at updated
    = WishlistCollection.updated_at collection
  ∧ setattr_required (update_name collection_data)
                     (WishlistCollection.name collection)
    = Ok (WishlistCollection.name updated)
  ∧ setattr_required (update_is_default collection_data)
                     (WishlistCollection.is_default collection)
    = Ok (WishlistCollection.is_default updated)
  ∧ WishlistCollection.description updated
    = setattr_nullable (update_description collection_data)
                       (WishlistCollection.description collection)
  ∧ WishlistCollection.color updated
    = setattr_nullable (update_color collection_data)
                       (WishlistCollection.color collection).
Proof.
  unfold apply_collection_update. intros Happly.
  repeat case_match; simplify_eq/=; done.
Qed.

Lemma create_collection_name_free collection_data current_user utcnow db r db' :
  create_collection collection_data current_user utcnow db = (Ok r, db') →
  WishlistCollection.name (resp_collection r) = create_name collection_data
  ∧ ∀ k c, wishlist_collections db !! k = Some c →
           WishlistCollection.user_id c = current_user.1 →
           WishlistCollection.name c ≠ create_name collection_data.
Proof.
  unfold create_collection. intros Hrun.
  destruct (scalar_one_or_none _) as [[found|]|e] eqn:Hcheck; simplify_eq/=.
  split; [done|]. intros k c Hk Hu Hname.
  apply scalar_select_where_None in Hcheck.
  eapply (map_filter_empty_not_lookup _ _ k c) in Hcheck; [done|]. done.
Qed.

Lemma update_collection_name_free
    collection_id collection_data current_user utcnow db r db' collection :
  update_collection collection_id collection_data current_user utcnow db
    = (Ok r, db') →
  wishlist_collections db !! collection_id = Some collection →
  ∀ new_name,
    update_name collection_data = Given (Some new_name) →
    new_name ≠ "" →
    new_name ≠ WishlistCollection.name collection →
    ∀ k c, wishlist_collections db !! k = Some c →
           WishlistCollection.user_id c = current_user.1 →
           k ≠ collection_id →
           WishlistCollection.name c ≠ new_name.
Proof.
  unfold update_collection. intros Hrun Hcollection new_name Hgiven Hne Hnew.
  unfold select_collection in Hrun. rewrite Hcollection in Hrun.
  case_decide; simplify_eq/=. rewrite Hgiven in Hrun. simpl in Hrun.
  rewrite bool_decide_true in Hrun by done.
  rewrite bool_decide_true in Hrun by congruence. simpl in Hrun.
  destruct (scalar_one_or_none _) as [[found|]|e] eqn:Hcheck; simplify_eq/=.
  intros k c Hk Hu Hkne Hname.
  apply scalar_select_where_None in Hcheck.
  eapply (map_filter_empty_not_lookup _ _ k c) in Hcheck; [done|].
  simpl. split_and!; [done|by rewrite Hname|done].
Qed.

(** Creating and updating collections keeps names unique per owner: a
    create under a name the caller already uses raises ConflictError
    and writes nothing, and so does a rename to the name of another of
    the caller's collections; what is written never gives one owner
    two collections of one name.  (A name given in an update is not
    empty: the schema's validator refuses it.) *)
Theorem collection_names_stay_unique current_user utcnow db :
  unique_names db →
  (∀ collection_data,
     unique_names (create_collection collection_data current_user utcnow db).2)
  ∧ (∀ collection_id collection_data,
       name_validated collection_data →
       unique_names
         (update_collection collection_id collection_data current_user
                            utcnow db).2)
  ∧ (∀ collection_data k c,
       wishlist_collections db !! k = Some c →
       WishlistCollection.user_id c = current_user.1 →
       WishlistCollection.name c = create_name collection_data →
       create_collection collection_data current_user utcnow db
       = (Raise (ConflictError ("Collection with name '" +:+
                                create_name collection_data +:+
                                "' already exists")), db)).
Proof.
  intros Huniq. split_and!.
  - intros collection_data.
    destruct (create_collection _ _ _ _) as [[r|e] db'] eqn:Hrun; simpl.
    2: { unfold create_collection in Hrun.
         repeat case_match; by simplify_eq/=. }
    pose proof (create_collection_name_free _ _ _ _ _ _ Hrun) as [Hname Hfree].
    apply create_collection_Ok in Hrun as (Hid & Hu & _ & ->).
    set (table := if truthy_bool _ then _ else _) in *.
    assert (table !! resp_id r = None) as Hfresh
      by (rewrite Hid; apply next_id_fresh).
    intros i j ci cj. simpl. rewrite !lookup_insert.
    repeat case_decide; intros Hi Hj Hsame Hnames; simplify_eq; try done.
    + apply if_unset_row in Hj as (c & Hc & Hcu & Hcn).
      exfalso. apply (Hfree j c); congruence.
    + apply if_unset_row in Hi as (c & Hc & Hcu & Hcn).
      exfalso. apply (Hfree i c); congruence.
    + apply if_unset_row in Hi as (c & Hc & Hcu & Hcn).
      apply if_unset_row in Hj as (d & Hd & Hdu & Hdn).
      apply (Huniq i j c d); congruence.
  - intros collection_id collection_data Hvalidated.
    destruct (update_collection _ _ _ _ _) as [[r|e] db'] eqn:Hrun; simpl.
    2: { unfold update_collection in Hrun.
         repeat case_match; by simplify_eq/=. }
    pose proof Hrun as (collection & updated & Hsel & Happly & Hr & ->)
      %update_collection_Ok.
    apply select_collection_Some in Hsel as [Hcollection Hcu].
    pose proof (update_collection_name_free _ _ _ _ _ _ _ _ Hrun Hcollection)
      as Hfree.
    apply apply_collection_update_row in Happly
      as (Hu & _ & _ & Hname & _).
    assert (WishlistCollection.user_id (resp_collection r) = current_user.1
            ∧ WishlistCollection.name (resp_collection r)
              = WishlistCollection.name updated) as [Hru Hrn].
    { rewrite Hr. destruct (flush_collection_row (utcnow 1%nat) collection
                              updated) as [-> | ->]; simpl; split; congruence. }
    assert (Hother : ∀ k c, k ≠ collection_id →
              wishlist_collections db !! k = Some c →
              WishlistCollection.user_id c = current_user.1 →
              WishlistCollection.name c = WishlistCollection.name updated →
              False).
    { intros k c Hk Hc Hcu' Hcn.
      unfold setattr_required in Hname.
      destruct (update_name collection_data) as [|[new_name|]] eqn:Hgiven;
        simplify_eq/=.
      - apply Hk. apply (Huniq k collection_id c collection); congruence.
      - destruct (decide (WishlistCollection.name updated
                          = WishlistCollection.name collection)) as [Heq|Hne].
        + apply Hk. apply (Huniq k collection_id c collection); congruence.
        + apply (Hfree (WishlistCollection.name updated) eq_refl) with k c;
            try done.
          intros Hempty. apply Hvalidated. by rewrite Hgiven, Hempty. }
    intros i j ci cj. simpl. rewrite !lookup_insert.
    repeat case_decide; intros Hi Hj Hsame Hnames; simplify_eq; try done.
    + apply if_unset_row in Hj as (c & Hc & Hcu' & Hcn).
      exfalso. apply (Hother j c); congruence.
    + apply if_unset_row in Hi as (c & Hc & Hcu' & Hcn).
      exfalso. apply (Hother i c); congruence.
    + apply if_unset_row in Hi as (c & Hc & Hcu' & Hcn).
      apply if_unset_row in Hj as (d & Hd & Hdu & Hdn).
      apply (Huniq i j c d); congruence.
  - intros collection_data k c Hk Hu Hname. unfold create_collection.
    destruct (scalar_one_or_none _) as [[found|]|e] eqn:Hcheck.
    + done.
    + apply scalar_select_where_None in Hcheck.
      eapply (map_filter_empty_not_lookup _ _ k c) in Hcheck; done.
    + exfalso. unfold scalar_one_or_none, select_where in Hcheck.
      set (found := filter _ _) in Hcheck.
      pose proof (NoDup_map_to_list found) as Hnodup.
      destruct (map_to_list found) as [|x [|y rest]] eqn:Hlist; simplify_eq/=.
      assert (x ∈ map_to_list found ∧ y ∈ map_to_list found) as [Hx Hy]
        by (rewrite Hlist; set_solver).
      destruct x as [kx cx], y as [ky cy].
      apply elem_of_map_to_list, map_lookup_filter_Some in Hx as [Hx [Hxu Hxn]].
      apply elem_of_map_to_list, map_lookup_filter_Some in Hy as [Hy [Hyu Hyn]].
      simpl in *.
      assert (kx = ky) as -> by (apply (Huniq kx ky cx cy); congruence).
      assert (cx = cy) as -> by congruence.
      apply NoDup_cons in Hnodup as [Hnotin _]. set_solver.
Qed.

Lemma collection_names_stay_unique_witness :
  unique_names
    (create_collection (Sample.new_collection "Films") Sample.alice
                       Sample.utcnow empty_db).2
  ∧ create_collection (Sample.new_collection "Films") Sample.alice
      Sample.utcnow
      (create_collection (Sample.new_collection "Films") Sample.alice
                         Sample.utcnow empty_db).2
    = (Raise (ConflictError "Collection with name 'Films' already exists"),
       (create_collection (Sample.new_collection "Films") Sample.alice
                          Sample.utcnow empty_db).2).
Proof.
  destruct (collection_names_stay_unique Sample.alice Sample.utcnow empty_db)
    as (Hcreate & _ & _).
  { intros i j c d Hi. simplify_map_eq. }
  split; [apply Hcreate|].
  destruct (collection_names_stay_unique Sample.alice Sample.utcnow
              (create_collection (Sample.new_collection "Films") Sample.alice
                                 Sample.utcnow empty_db).2)
    as (_ & _ & Hconflict).
  { apply Hcreate. }
  apply (Hconflict (Sample.new_collection "Films") 1
           (WishlistCollection.mk 1 "Films" None None false
                                  1700000001 1700000002));
    vm_compute; reflexivity.
Defined.

(** ** The default flag on create and update *)

Lemma defaults_of_set_one user_id except now table k c db :
  WishlistCollection.user_id c = user_id →
  WishlistCollection.is_default c = true →
  except = None ∨ except = Some k →
  defaults_of user_id
    (set_collections (<[k := c]> (unset_defaults user_id except now table)) db)
  = {[k := c]}.
Proof.
  intros Hu Hd Hexcept. apply map_eq. intros i. apply option_eq. intros ci.
  rewrite lookup_defaults_of, lookup_singleton_Some. simpl. split.
  - intros (Hi & Hiu & Hid).
    destruct (decide (i = k)) as [->|Hne].
    + rewrite lookup_insert_eq in Hi. naive_solver.
    + rewrite lookup_insert_ne in Hi by done.
      apply unset_defaults_Some in Hi as (c0 & _ & Hu0 & _ & Hd0).
      destruct (Hd0 Hid) as [_ Hex]. exfalso.
      destruct Hexcept as [-> | ->]; naive_solver congruence.
  - intros [-> <-]. by rewrite lookup_insert_eq.
Qed.

(** Asking for the default flag on create or on update does what
    set-default does: after a create with [is_default] true the new
    collection is the caller's only default, and after an update with
    [is_default] true the updated collection is. *)
Theorem default_flag_on_create_and_update current_user utcnow db :
  (∀ collection_data r db',
     create_is_default collection_data = Some true →
     create_collection collection_data current_user utcnow db = (Ok r, db') →
     defaults_of current_user.1 db' = {[resp_id r := resp_collection r]})
  ∧ (∀ collection_id collection_data r db',
       update_is_default collection_data = Given (Some true) →
       update_collection collection_id collection_data current_user utcnow db
         = (Ok r, db') →
       defaults_of current_user.1 db'
       = {[collection_id := resp_collection r]}).
Proof.
  split.
  - intros collection_data r db' Htrue Hrun.
    apply create_collection_Ok in Hrun as (_ & Hu & Hd & ->).
    rewrite Htrue in *. simpl in *.
    apply defaults_of_set_one; auto.
  - intros collection_id collection_data r db' Htrue Hrun.
    apply update_collection_Ok in Hrun
      as (collection & updated & Hsel & Happly & Hr & ->).
    apply select_collection_Some in Hsel as [_ Hcu].
    apply apply_collection_update_fields in Happly as (Hu & Hd & _).
    rewrite Htrue in *. simpl in *.
    destruct (flush_collection_fields (utcnow 1%nat) collection updated)
      as [Hfu Hfd].
    apply defaults_of_set_one; auto; congruence.
Qed.

(** ** Updating a collection *)

(** A successful [update_collection] never changes the owner or the
    creation time of the collection, keeps every field the body leaves
    out, and stores what the body gives for the others.  Collections of
    other users, and the users, items and price-history tables, are
    untouched; another collection of the caller changes only by losing
    its default flag, and only when the body sets [is_default] true. *)
Theorem update_collection_frame
    collection_id collection_data current_user utcnow db r db' collection :
  wishlist_collections db !! collection_id = Some collection →
  update_collection collection_id collection_data current_user utcnow db
    = (Ok r, db') →
  let stored := resp_collection r in
  wishlist_collections db' !! collection_id = Some stored
  ∧ WishlistCollection.user_id stored = WishlistCollection.user_id collection
  ∧ WishlistCollection.created_at stored
    = WishlistCollection.created_at collection
  ∧ WishlistCollection.name stored
    = default (WishlistCollection.name collection)
              (field_value (update_name collection_data))
  ∧ WishlistCollection.is_default stored
    = default (WishlistCollection.is_default collection)
              (field_value (update_is_default collection_data))
  ∧ WishlistCollection.description stored
    = setattr_nullable (update_description collection_data)
                       (WishlistCollection.description collection)
  ∧ WishlistCollection.color stored
    = setattr_nullable (update_color collection_data)
                       (WishlistCollection.color collection)
  ∧ (∀ k c, k ≠ collection_id →
            wishlist_collections db !! k = Some c →
            WishlistCollection.user_id c ≠ current_user.1
            ∨ WishlistCollection.is_default c = false
            ∨ update_is_default collection_data ≠ Given (Some true) →
            wishlist_collections db' !! k = Some c)
  ∧ (∀ k, is_Some (wishlist_collections db' !! k)
          ↔ is_Some (wishlist_collections db !! k))
  ∧ users db' = users db
  ∧ wishlist_items db' = wishlist_items db
  ∧ price_history db' = price_history db.
Proof.
  intros Hcollection Hrun stored.
  apply update_collection_Ok in Hrun
    as (collection' & updated & Hsel & Happly & Hr & ->).
  apply select_collection_Some in Hsel as [Hk Hcu].
  assert (collection' = collection) as -> by congruence.
  apply apply_collection_update_row in Happly
    as (Hu & Hcreated & _ & Hname & Hdefault & Hdescription & Hcolor).
  assert (WishlistCollection.name updated
          = default (WishlistCollection.name collection)
                    (field_value (update_name collection_data))) as Hname'.
  { unfold setattr_required in Hname.
    destruct (update_name collection_data) as [|[?|]]; by simplify_eq/=. }
  assert (WishlistCollection.is_default updated
          = default (WishlistCollection.is_default collection)
                    (field_value (update_is_default collection_data)))
    as Hdefault'.
  { unfold setattr_required in Hdefault.
    destruct (update_is_default collection_data) as [|[?|]]; by simplify_eq/=. }
  assert (∀ (T : Type) (field : WishlistCollection.t → T),
            (∀ now c, field (touch_collection now c) = field c) →
            field stored = field updated) as Hstored.
  { intros T field Htouch. unfold stored. rewrite Hr.
    destruct (flush_collection_row (utcnow 1%nat) collection updated)
      as [-> | ->]; [done|apply Htouch]. }
  split_and!; try done.
  - simpl. apply lookup_insert_eq.
  - by rewrite (Hstored _ WishlistCollection.user_id).
  - by rewrite (Hstored _ WishlistCollection.created_at).
  - by rewrite (Hstored _ WishlistCollection.name).
  - by rewrite (Hstored _ WishlistCollection.is_default).
  - by rewrite (Hstored _ WishlistCollection.description).
  - by rewrite (Hstored _ WishlistCollection.color).
  - intros k c Hne Hc Hkeep. simpl. rewrite lookup_insert_ne by done.
    destruct (truthy_bool _) eqn:Htruthy; [|done].
    rewrite lookup_unset_defaults, Hc. simpl.
    rewrite decide_False; [done|]. intros (? & ? & _).
    destruct Hkeep as [?|[?|Hnot]]; [congruence..|].
    apply Hnot. unfold truthy_bool in Htruthy.
    destruct (update_is_default collection_data) as [|[[]|]]; by simplify_eq/=.
  - intros k. simpl. rewrite lookup_insert_is_Some'.
    destruct (truthy_bool _).
    + rewrite unset_defaults_is_Some. naive_solver.
    + naive_solver.
Qed.

Lemma update_collection_frame_witness :
  ∃ r db',
    update_collection 1
      {| update_name := Given (Some "Novels"); update_description := Omitted;
         update_color := Omitted; update_is_default := Omitted |}
      Sample.alice Sample.utcnow Sample.two_collections = (Ok r, db')
    ∧ WishlistCollection.name (resp_collection r) = "Novels"
    ∧ WishlistCollection.is_default (resp_collection r) = false
    ∧ wishlist_items db' = wishlist_items Sample.two_collections.
Proof.
  destruct (update_collection 1
              {| update_name := Given (Some "Novels");
                 update_description := Omitted; update_color := Omitted;
                 update_is_default := Omitted |}
              Sample.alice Sample.utcnow
              Sample.two_collections) as [[r|e] db'] eqn:Hrun;
    [|vm_compute in Hrun; discriminate Hrun].
  exists r, db'. split; [reflexivity|].
  destruct (update_collection_frame 1
              {| update_name := Given (Some "Novels");
                 update_description := Omitted; update_color := Omitted;
                 update_is_default := Omitted |}
              Sample.alice Sample.utcnow
              Sample.two_collections r db'
              (WishlistCollection.mk 1 "Books" None None false
                                     1700000001 1700000002))
    as (_ & _ & _ & Hname & Hdefault & _ & _ & _ & _ & _ & Hitems & _).
  - vm_compute. reflexivity.
  - exact Hrun.
  - split; [exact Hname|]. split; [exact Hdefault|exact Hitems].
Defined.

(** ** Listing collections *)

(** [get_collections] lists the caller's collections and nothing else:
    each listed entry is a collection the caller owns, with the number
    of items that are in it, and each collection the caller owns is
    listed exactly once.  Nothing is written. *)
Theorem get_collections_lists_own_collections current_user db :
  ∃ listed,
    get_collections current_user db = (Ok listed, db)
    ∧ NoDup (resp_id <$> listed)
    ∧ ∀ entry,
        entry ∈ listed ↔
        wishlist_collections db !! resp_id entry = Some (resp_collection entry)
        ∧ WishlistCollection.user_id (resp_collection entry) = current_user.1
        ∧ resp_item_count entry
          = size (items_of_collection (resp_id entry) db).
Proof.
  eexists. split; [reflexivity|]. split.
  - pose proof (NoDup_fst_map_to_list (collections_of current_user.1 db))
      as Hnodup.
    revert Hnodup. generalize (map_to_list (collections_of current_user.1 db)).
    intros rows. induction rows as [|row rows IH]; simpl; [done|].
    rewrite !NoDup_cons. intros [Hnotin Hrest]. split; [|by apply IH].
    clear IH Hrest. induction rows as [|row' rows IH]; simpl; set_solver.
  - intros entry. rewrite list_elem_of_In, in_map_iff.
    setoid_rewrite <-list_elem_of_In. split.
    + intros ([k c] & <- & Hin%elem_of_map_to_list). simpl.
      apply lookup_collections_of in Hin. naive_solver.
    + intros (Hk & Hu & Hcount).
      exists (resp_id entry, resp_collection entry). split.
      * destruct entry. simpl in *. by rewrite Hcount.
      * apply elem_of_map_to_list, lookup_collections_of. done.
Qed.

(** ** Items and the collections they are in *)

Lemma collection_keys_positive_owner_at db :
  collection_keys_positive db ↔
  ∀ k user_id, owner_at (wishlist_collections db) k = Some user_id → (1 ≤ k)%Z.
Proof.
  unfold collection_keys_positive, owner_at. split.
  - intros Hpos k user_id Hk. apply Hpos.
    destruct (wishlist_collections db !! k); [eauto|done].
  - intros Hpos k [c Hk]. apply (Hpos k (WishlistCollection.user_id c)).
    by rewrite Hk.
Qed.

Lemma update_item_collection_checked
    item_id item_data current_user utcnow db r db' :
  update_wishlist_item item_id item_data current_user utcnow db = (Ok r, db') →
  ∃ item,
    wishlist_items db !! item_id = Some item
    ∧ WishlistItem.user_id item = current_user.1
    ∧ WishlistItem.user_id r.2 = current_user.1
    ∧ (WishlistItem.collection_id r.2 = WishlistItem.collection_id item
       ∨ WishlistItem.collection_id r.2 = 0
       ∨ owner_at (wishlist_collections db) (WishlistItem.collection_id r.2)
         = Some current_user.1).
Proof.
  intros Hrun.
  pose proof Hrun as (item & updated & Hitem & Hu & Happly & -> & _)
    %update_wishlist_item_Ok.
  exists item. split_and!; try done.
  - apply apply_item_update_fields in Happly as (Hu' & _).
    simpl. unfold flush_item. case_decide; simpl; congruence.
  - apply apply_item_update_fields in Happly
      as (_ & _ & _ & _ & _ & _ & _ & Hcollection & _).
    simpl.
    assert (WishlistItem.collection_id (flush_item (utcnow 0%nat) item updated)
            = WishlistItem.collection_id updated) as ->.
    { unfold flush_item. case_decide; by subst. }
    unfold update_wishlist_item, select_item in Hrun. rewrite Hitem in Hrun.
    rewrite decide_False in Hrun by naive_solver.
    unfold setattr_required in Hcollection.
    destruct (update_collection_id item_data) as [|[new|]] eqn:Hgiven;
      simplify_eq/=; [by left|].
    destruct (decide (WishlistItem.collection_id updated = 0)) as [|Hnonzero];
      [by right; left|].
    destruct (decide (WishlistItem.collection_id updated
                      = WishlistItem.collection_id item)) as [|Hmoved];
      [by left|].
    right. right.
    rewrite bool_decide_true in Hrun by done.
    rewrite bool_decide_true in Hrun by congruence. simpl in Hrun.
    destruct (select_collection (WishlistItem.collection_id updated)
                current_user.1 db) as [c|] eqn:Hsel.
    + apply select_collection_Some in Hsel as [Hc Hcu].
      apply owner_at_Some. eauto.
    + rewrite bool_decide_true in Hrun by done. done.
Qed.

Lemma serve_items_in_own_collections endpoint current_user utcnow db :
  items_in_own_collections db ∧ collection_keys_positive db →
  items_in_own_collections (serve endpoint current_user utcnow db).2
  ∧ collection_keys_positive (serve endpoint current_user utcnow db).2.
Proof.
  intros [Hitems Hpos].
  destruct (serve endpoint current_user utcnow db) as [[r|e] db'] eqn:Hrun;
    simpl; [|by apply serve_Raise_unchanged in Hrun as ->].
  rewrite collection_keys_positive_owner_at in Hpos |- *.
  destruct endpoint; cbn [serve] in Hrun;
    apply respond_Ok in Hrun as (a & Hrun & ->).
  all: try (assert (db' = db) as -> by read_only Hrun; done).
  - (* create_collection *)
    pose proof (create_collection_owner_at _ _ _ _ _ _ Hrun) as [Hfresh Howner].
    apply create_collection_Ok in Hrun as (Hid & _ & _ & ->).
    split.
    + intros k item Hk. simpl in Hk.
      destruct (Hitems k item Hk) as [?|Hown]; [by left|right].
      rewrite Howner. case_decide; [congruence|done].
    + intros k user_id. rewrite Howner. case_decide; [|apply Hpos].
      intros _. subst k. rewrite Hid. apply next_id_positive.
  - (* update_collection *)
    pose proof (update_collection_owner_at _ _ _ _ _ _ _ Hrun) as Howner.
    apply update_collection_Ok in Hrun as (?&?&_&_&_&->).
    split.
    + intros k item Hk. simpl in Hk. rewrite Howner. exact (Hitems k item Hk).
    + intros k user_id. rewrite Howner. apply Hpos.
  - (* delete_collection *)
    apply delete_collection_Ok in Hrun as (_ & _ & ->).
    split.
    + intros k item [Hk Hne]%lookup_delete_collection_items.
      destruct (Hitems k item Hk) as [?|Hown]; [by left|right].
      simpl. unfold owner_at in *. by rewrite lookup_delete_ne.
    + intros k user_id. simpl. unfold owner_at.
      destruct (decide (collection_id = k)) as [->|Hne].
      * by rewrite lookup_delete_eq.
      * rewrite lookup_delete_ne by done. apply Hpos.
  - (* set_default_collection *)
    pose proof (set_default_collection_owner_at _ _ _ _ _ _ Hrun) as Howner.
    apply set_default_collection_Ok in Hrun as (?&_&_&_&->).
    split.
    + intros k item Hk. simpl in Hk. rewrite Howner. exact (Hitems k item Hk).
    + intros k user_id. rewrite Howner. apply Hpos.
  - (* create_wishlist_item *)
    apply create_wishlist_item_Ok in Hrun
      as ([c Hsel] & _ & Hu & Hcollection & _ & _ & _ & ->).
    apply select_collection_Some in Hsel as [Hc Hcu].
    split; [|done].
    intros k item. simpl. rewrite lookup_insert. case_decide.
    + intros [= <-]. right. rewrite Hcollection, Hu.
      apply owner_at_Some. eauto.
    + apply (Hitems k item).
  - (* update_wishlist_item *)
    pose proof (update_item_collection_checked _ _ _ _ _ _ _ Hrun)
      as (item & Hitem & Hiu & Hau & Hchecked).
    apply update_wishlist_item_Ok in Hrun as (?&?&_&_&_&_&->).
    split; [|done].
    intros k item'. simpl. rewrite lookup_insert. case_decide.
    + intros [= <-]. rewrite Hau.
      destruct Hchecked as [Hsame|[?|?]]; [|by left|by right].
      rewrite Hsame. destruct (Hitems _ _ Hitem) as [?|?]; [by left|right].
      congruence.
    + apply (Hitems k item').
  - (* delete_wishlist_item *)
    apply delete_wishlist_item_Ok in Hrun as (_ & ->).
    split; [|done].
    intros k item. simpl. intros [_ Hk]%lookup_delete_Some.
    exact (Hitems k item Hk).
  - (* create_price_history_entry *)
    by apply create_price_history_entry_Ok in Hrun as (_ & _ & ->).
Qed.

Lemma reachable_items_in_own_collections pwd_context db :
  reachable pwd_context db →
  items_in_own_collections db ∧ collection_keys_positive db.
Proof.
  induction 1 as [|db email password utcnow _ IH
                  |db endpoint current_user utcnow _ IH Huser].
  - split; intros k; intros; simplify_map_eq. by destruct H.
  - destruct (register_user_tables pwd_context email password utcnow db)
      as (Hc & Hi & _).
    unfold items_in_own_collections, collection_keys_positive.
    by rewrite Hc, Hi.
  - by apply serve_items_in_own_collections.
Qed.

(** The ownership chain.  In every database the API can reach, an
    item sits in an existing collection of its own owner, or carries
    the collection id 0 that an update can give it (the route tests
    the new id for truth before checking it, and collection keys start
    at 1, so such an item is in no collection).  Hence the items that
    [get_collection] returns with a collection all belong to the
    caller. *)
Theorem items_stay_with_their_owner pwd_context db :
  reachable pwd_context db →
  (∀ k item,
     wishlist_items db !! k = Some item →
     WishlistItem.collection_id item = 0
     ∨ ∃ collection,
         wishlist_collections db !! WishlistItem.collection_id item
           = Some collection
         ∧ WishlistCollection.user_id collection = WishlistItem.user_id item)
  ∧ wishlist_collections db !! 0 = None
  ∧ (∀ collection_id current_user r items db',
       get_collection collection_id current_user db = (Ok (r, items), db') →
       ∀ k item, items !! k = Some item →
                 wishlist_items db !! k = Some item
                 ∧ WishlistItem.user_id item = current_user.1).
Proof.
  intros [Hitems Hpos]%reachable_items_in_own_collections.
  assert (wishlist_collections db !! 0 = None) as Hzero.
  { destruct (wishlist_collections db !! 0) as [c|] eqn:Hc; [|done].
    assert (1 ≤ 0)%Z by (apply Hpos; eauto). lia. }
  split_and!; [|done|].
  - intros k item Hk. destruct (Hitems k item Hk) as [?|Hown]; [by left|right].
    by apply owner_at_Some in Hown.
  - intros collection_id current_user r items db'. unfold get_collection.
    destruct (select_collection _ _ _) as [c|] eqn:Hsel; [|done].
    intros [= <- <- <-] k item.
    apply select_collection_Some in Hsel as [Hc Hcu].
    unfold items_of_collection.
    intros [Hk Hin]%map_lookup_filter_Some. simpl in Hin. split; [done|].
    destruct (Hitems k item Hk) as [Hdetached|Hown].
    + congruence.
    + rewrite Hin in Hown. apply owner_at_Some in Hown as (c' & ? & ?).
      congruence.
Qed.

Lemma items_stay_with_their_owner_witness :
  wishlist_collections Sample.with_items !! 0 = None
  ∧ ∀ r items db',
      get_collection 1 Sample.alice Sample.with_items = (Ok (r, items), db') →
      ∀ k item, items !! k = Some item → WishlistItem.user_id item = 1.
Proof.
  destruct (items_stay_with_their_owner Sample.pwd_context Sample.with_items)
    as (_ & Hzero & Hget).
  { apply sample_with_items_reachable. }
  split; [exact Hzero|].
  intros r items db' Hrun k item Hk.
  apply (Hget 1 Sample.alice r items db' Hrun k item Hk).
Defined.

(** Creating a collection and deleting it again restores the
    database: for a caller who already owns a collection, a create
    that does not ask for the default flag followed by a delete of the
    new collection succeeds and leaves every table as it was. *)
Theorem create_then_delete_collection
    pwd_context collection_data current_user utcnow db r db' :
  reachable pwd_context db →
  truthy_bool (create_is_default collection_data) = false →
  (1 ≤ collection_count current_user.1 db)%nat →
  create_collection collection_data current_user utcnow db = (Ok r, db') →
  delete_collection (resp_id r) current_user db' = (Ok (), db).
Proof.
  intros [Hitems Hpos]%reachable_items_in_own_collections Hplain Hcount Hrun.
  pose proof (create_collection_owner_at _ _ _ _ _ _ Hrun) as [Hfresh _].
  apply create_collection_Ok in Hrun as (Hid & Hu & _ & ->).
  rewrite Hplain in *.
  assert (wishlist_collections db !! resp_id r = None) as Hnone.
  { rewrite Hid. apply next_id_fresh. }
  unfold delete_collection, select_collection. simpl.
  rewrite lookup_insert_eq. rewrite decide_True by done.
  rewrite decide_False.
  2: { unfold collections_of. simpl.
       rewrite map_filter_insert_True by done.
       rewrite map_size_insert_None.
       - unfold collection_count, collections_of in Hcount. lia.
       - apply map_lookup_filter_None. by left. }
  f_equal. unfold delete_collection_cascade. simpl.
  destruct db as [us cs its phs]. simpl in *. f_equal.
  - by rewrite delete_insert_eq, delete_id.
  - apply map_filter_id. intros k item Hk. simpl.
    destruct (Hitems k item Hk) as [Hzero|Hown].
    + rewrite Hzero. pose proof (next_id_positive cs). lia.
    + intros Heq. rewrite Heq in Hown. simpl in Hown. congruence.
  - apply map_filter_id. intros k entry Hk. simpl.
    unfold entry_in_collection. simpl.
    destruct (its !! PriceHistory.wishlist_item_id entry) as [item|] eqn:Hitem;
      [|tauto].
    destruct (Hitems _ item Hitem) as [Hzero|Hown].
    + rewrite Hzero. pose proof (next_id_positive cs). lia.
    + intros Heq. rewrite Heq in Hown. simpl in Hown. congruence.
Qed.

Lemma create_then_delete_collection_witness :
  ∃ r db',
    create_collection (Sample.new_collection "Films") Sample.alice
                      Sample.utcnow Sample.with_items = (Ok r, db')
    ∧ delete_collection (resp_id r) Sample.alice db'
      = (Ok (), Sample.with_items).
Proof.
  destruct (create_collection (Sample.new_collection "Films") Sample.alice
              Sample.utcnow Sample.with_items) as [[r|e] db'] eqn:Hrun;
    [|vm_compute in Hrun; discriminate Hrun].
  exists r, db'. split; [reflexivity|].
  apply (create_then_delete_collection Sample.pwd_context
           (Sample.new_collection "Films") Sample.alice Sample.utcnow).
  - apply sample_with_items_reachable.
  - reflexivity.
  - vm_compute. lia.
  - exact Hrun.
Defined.

(** ** Items *)





(** Deleting an item of one's own succeeds and takes exactly the
    item and its price-history rows with it: every other item and
    every price-history row of another item stay as they were, and so
    do the collections and the users. *)
Theorem delete_wishlist_item_cascade item_id current_user db item :
  wishlist_items db !! item_id = Some item →
  WishlistItem.user_id item = current_user.1 →
  ∃ db',
    delete_wishlist_item item_id current_user db = (Ok (), db')
    ∧ wishlist_items db' !! item_id = None
    ∧ (∀ k, k ≠ item_id → wishlist_items db' !! k = wishlist_items db !! k)
    ∧ price_history_of item_id db' = ∅
    ∧ (∀ k entry,
         price_history db' !! k = Some entry ↔
         price_history db !! k = Some entry
         ∧ PriceHistory.wishlist_item_id entry ≠ item_id)
    ∧ wishlist_collections db' = wishlist_collections db
    ∧ users db' = users db.
Proof.
  intros Hitem Hu. unfold delete_wishlist_item, select_item.
  rewrite Hitem. rewrite decide_False by naive_solver.
  eexists. split; [reflexivity|]. simpl. split_and!; try done.
  - apply lookup_delete_eq.
  - intros k Hne. by apply lookup_delete_ne.
  - unfold price_history_of. simpl. apply map_empty. intros k.
    apply map_lookup_filter_None. right. intros entry Hentry.
    apply map_lookup_filter_Some in Hentry as [_ Hne]. done.
  - intros k entry. by rewrite map_lookup_filter_Some.
Qed.

Lemma delete_wishlist_item_cascade_witness :
  ∃ db',
    delete_wishlist_item 1 Sample.alice Sample.with_items = (Ok (), db')
    ∧ wishlist_items db' !! 1 = None
    ∧ price_history_of 1 db' = ∅
    ∧ wishlist_items db' !! 2 = wishlist_items Sample.with_items !! 2.
Proof.
  destruct (delete_wishlist_item_cascade 1 Sample.alice Sample.with_items
              (WishlistItem.mk 1 1 "X" None 1000 1000 "USD"
                               1700000000 1700000001))
    as (db' & Hrun & Hgone & Hothers & Hentries & _).
  - vm_compute. reflexivity.
  - reflexivity.
  - exists db'. split; [exact Hrun|]. split; [exact Hgone|].
    split; [exact Hentries|]. apply Hothers. discriminate.
Defined.

(** ** Price history *)



(** Price-history rows are never rewritten.  Across any authenticated
    request, a row that exists either stays exactly as it was, or is
    gone together with the item it belonged to. *)
Theorem price_history_rows_are_immutable
    endpoint current_user utcnow db k entry :
  price_history db !! k = Some entry →
  price_history (serve endpoint current_user utcnow db).2 !! k = Some entry
  ∨ (price_history (serve endpoint current_user utcnow db).2 !! k = None
     ∧ wishlist_items (serve endpoint current_user utcnow db).2
         !! PriceHistory.wishlist_item_id entry = None).
Proof.
  intros Hentry.
  destruct (serve endpoint current_user utcnow db) as [[r|e] db'] eqn:Hrun;
    simpl; [|apply serve_Raise_unchanged in Hrun as ->; by left].
  destruct endpoint; cbn [serve] in Hrun;
    apply respond_Ok in Hrun as (a & Hrun & ->).
  all: try (assert (db' = db) as -> by read_only Hrun; by left).
  - apply create_collection_Ok in Hrun as (_&_&_&->). by left.
  - apply update_collection_Ok in Hrun as (?&?&_&_&_&->). by left.
  - apply delete_collection_Ok in Hrun as (_&_&->).
    destruct (decide (entry_in_collection collection_id db entry)) as [Hin|Hout].
    + right. split.
      * simpl. apply map_lookup_filter_None. right.
        intros entry' Hentry'. simpl. naive_solver.
      * simpl. apply map_lookup_filter_None.
        unfold entry_in_collection in Hin.
        destruct (wishlist_items db !! _) as [item|]; [|by left].
        right. intros item' [= <-]. simpl. naive_solver.
    + left. simpl. by apply map_lookup_filter_Some.
  - apply set_default_collection_Ok in Hrun as (?&_&_&_&->). by left.
  - apply create_wishlist_item_Ok in Hrun as (_&_&_&_&_&_&_&->).
    left. simpl. rewrite lookup_insert_ne; [done|].
    intros <-. by rewrite next_id_fresh in Hentry.
  - apply update_wishlist_item_Ok in Hrun as (?&?&_&_&_&_&->). by left.
  - apply delete_wishlist_item_Ok in Hrun as (_&->).
    destruct (decide (PriceHistory.wishlist_item_id entry = item_id))
      as [Hin|Hout].
    + right. split.
      * simpl. apply map_lookup_filter_None. right.
        intros entry' Hentry'. simpl. naive_solver.
      * simpl. rewrite Hin. apply lookup_delete_eq.
    + left. simpl. by apply map_lookup_filter_Some.
  - apply create_price_history_entry_Ok in Hrun as (_&->&->).
    left. simpl. rewrite lookup_insert_ne; [done|].
    intros <-. by rewrite next_id_fresh in Hentry.
Qed.

Lemma price_history_rows_are_immutable_witness :
  price_history
    (serve (PUT_wishlist_item 1
              {| update_title := Omitted; update_product_url := Omitted;
                 update_current_price := Given (Some 800);
                 update_collection_id := Omitted |})
           Sample.alice Sample.utcnow Sample.with_items).2 !! 1
  = Some (PriceHistory.mk 1 1000 1700000002).
Proof.
  destruct (price_history_rows_are_immutable
              (PUT_wishlist_item 1
                 {| update_title := Omitted; update_product_url := Omitted;
                    update_current_price := Given (Some 800);
                    update_collection_id := Omitted |})
              Sample.alice Sample.utcnow Sample.with_items 1
              (PriceHistory.mk 1 1000 1700000002))
    as [Hkept|[_ Hgone]].
  - vm_compute. reflexivity.
  - exact Hkept.
  - vm_compute in Hgone. discriminate Hgone.
Defined.

(** References never dangle in the databases the API can reach,
    though the engine is not asked to enforce them: every
    price-history row belongs to an item that exists, every collection
    to a user that exists, and no two users share an email. *)
Theorem stored_references_never_dangle pwd_context db :
  reachable pwd_context db →
  (∀ k entry, price_history db !! k = Some entry →
              is_Some (wishlist_items db
                         !! PriceHistory.wishlist_item_id entry))
  ∧ (∀ k c, wishlist_collections db !! k = Some c →
            is_Some (users db !! WishlistCollection.user_id c))
  ∧ (∀ i j u v, users db !! i = Some u → users db !! j = Some v →
                User.email u = User.email v → i = j).
Proof.
  intros Hreach.
  pose proof (reachable_invariants _ _ Hreach) as (_ & Hph & Hcoll).
  pose proof (reachable_unique_emails _ _ Hreach) as Huniq.
  split_and!; done.
Qed.

Lemma stored_references_never_dangle_witness :
  ∃ entry,
    price_history Sample.with_items !! 1 = Some entry
    ∧ is_Some (wishlist_items Sample.with_items
                 !! PriceHistory.wishlist_item_id entry).
Proof.
  destruct (stored_references_never_dangle Sample.pwd_context
              Sample.with_items) as (Hph & _).
  - apply sample_with_items_reachable.
  - destruct (price_history Sample.with_items !! 1) as [entry|] eqn:Hentry.
    + exists entry. split; [reflexivity|]. exact (Hph 1 entry Hentry).
    + vm_compute in Hentry. discriminate.
Defined.

(** ** Moving and re-saving an item *)




